(** * DataTable and InputField: a shallow embedding of the two components

    The development follows [DataTable.tsx] and [InputField.tsx].  The
    pieces of the JavaScript runtime the components rely on (primitive
    values, [===], [<], truthiness, arrays living in a store, and what
    the language promises of [Array.prototype.sort]) are modelled in
    [Module JS]; the component code is in [Module DataTable] and
    [Module InputField]; [Module Order] names the columns that have an
    order; [Module TableMarkup] and [Module InputFieldMarkup] hold
    what the two components derive for their markup; [Module Sample]
    holds a few rows and one engine; the properties come last. *)

From Stdlib Require Import ZArith String List Sorting.Sorted Sorting.Permutation.
From Stdlib Require Import Structures.OrderedTypeEx.
From stdpp Require Import base numbers option list strings gmap fin_maps.

Local Open Scope string_scope.
Local Open Scope Z_scope.

(* ===================================================================== *)
(** ** The JavaScript values the components touch *)
(* ===================================================================== *)

Module JS.

(** The primitive values a field of a row can hold.  Numbers are the
    integers and [NaN]. *)
Inductive Value : Type :=
| VUndefined
| VNull
| VBool (b : bool)
| VNum (n : Z)
| VNaN
| VStr (s : string).

#[global] Instance Value_eq_dec : EqDecision Value.
Proof. solve_decision. Defined.

(** [ToBoolean]: what [!v], [v || w] and [v && w] test. *)
Definition truthy (v : Value) : bool :=
  match v with
  | VUndefined | VNull | VNaN => false
  | VBool b => b
  | VNum n => negb (n =? 0)
  | VStr s => negb (String.eqb s "")
  end.

(** [v || w] *)
Definition or_else (v w : Value) : Value := if truthy v then v else w.

(** [v === w]: the same value, except that [NaN] is not equal to
    anything, itself included. *)
Definition strict_eq (v w : Value) : bool :=
  match v, w with
  | VNaN, _ | _, VNaN => false
  | _, _ => bool_decide (v = w)
  end.

Section Relational.

(** [StringToNumber] of the runtime (numeric literal parsing, with
    [None] for [NaN]) is left abstract. *)
Variable StringToNumber : string -> option Z.

Definition ToNumber (v : Value) : option Z :=
  match v with
  | VUndefined | VNaN => None
  | VNull => Some 0
  | VBool b => Some (if b then 1 else 0)
  | VNum n => Some n
  | VStr s => StringToNumber s
  end.

(** [v < w]: two strings are compared by code units (the characters of
    [string] here), anything else numerically; a comparison involving
    [NaN] is false. *)
Definition lt (v w : Value) : bool :=
  match v, w with
  | VStr s, VStr t => String.ltb s t
  | _, _ =>
      match ToNumber v, ToNumber w with
      | Some n, Some m => n <? m
      | _, _ => false
      end
  end.

End Relational.

(** Objects are string-keyed records; a missing property reads as
    [undefined]. *)
Definition get (o : gmap string Value) (k : string) : Value :=
  default VUndefined (o !! k).

(** *** Arrays

    Arrays are mutable objects: a store maps a reference to the
    current contents of the array it denotes. *)
Definition ref := positive.

Section Arrays.
Context {A : Type}.

Definition contents (h : gmap ref (list A)) (a : ref) : list A :=
  default [] (h !! a).

(** Array creation: an array literal, a spread [[...a]], [filter]. *)
Definition alloc (h : gmap ref (list A)) (xs : list A)
  : gmap ref (list A) * ref :=
  let a := fresh (dom h) in (<[a := xs]> h, a).

(** [comparefn] does not ask for [b] to come before [a]. *)
Definition in_order (comparefn : A -> A -> Z) (a b : A) : Prop :=
  comparefn a b <= 0.

(** A consistent comparator for the elements of [l], as the language
    defines it: [comparefn a b = 0] is an equivalence, and both
    [comparefn a b < 0] and [comparefn a b > 0] are transitive. *)
Definition consistent (comparefn : A -> A -> Z) (l : list A) : Prop :=
  (forall a, a ∈ l -> comparefn a a = 0) /\
  (forall a b, a ∈ l -> b ∈ l -> comparefn a b = 0 -> comparefn b a = 0) /\
  (forall a b c, a ∈ l -> b ∈ l -> c ∈ l ->
     comparefn a b = 0 -> comparefn b c = 0 -> comparefn a c = 0) /\
  (forall a b c, a ∈ l -> b ∈ l -> c ∈ l ->
     comparefn a b < 0 -> comparefn b c < 0 -> comparefn a c < 0) /\
  (forall a b c, a ∈ l -> b ∈ l -> c ∈ l ->
     0 < comparefn a b -> 0 < comparefn b c -> 0 < comparefn a c).

(** A stable sort by insertion: one way to sort, used for the sample
    engine below. *)
Fixpoint sort_insert (comparefn : A -> A -> Z) (x : A) (l : list A)
  : list A :=
  match l with
  | [] => [x]
  | y :: l' =>
      if comparefn x y <=? 0 then x :: y :: l'
      else y :: sort_insert comparefn x l'
  end.

Fixpoint sorted_list (comparefn : A -> A -> Z) (l : list A) : list A :=
  match l with
  | [] => []
  | x :: l' => sort_insert comparefn x (sorted_list comparefn l')
  end.

End Arrays.

(** What the components use of the engine they run on.
    [Array.prototype.sort] always rearranges the elements; when the
    comparator is consistent for them, the result is in the order of
    the comparator and elements that compare as equal keep their
    order.  For any other comparator the order is up to the engine. *)
Record Engine : Type := {
  StringToNumber : string -> option Z;
  array_sort : forall A : Type, (A -> A -> Z) -> list A -> list A;
  array_sort_permutation :
    forall (A : Type) (comparefn : A -> A -> Z) (l : list A),
      Permutation l (array_sort A comparefn l);
  array_sort_ordered :
    forall (A : Type) (comparefn : A -> A -> Z) (l : list A),
      consistent comparefn l ->
      StronglySorted (in_order comparefn) (array_sort A comparefn l);
  array_sort_stable :
    forall (A : Type) (comparefn : A -> A -> Z) (l : list A) (a : A),
      consistent comparefn l -> a ∈ l ->
      List.filter (fun x => comparefn a x =? 0) (array_sort A comparefn l)
      = List.filter (fun x => comparefn a x =? 0) l
}.

(** [a.sort(comparefn)] sorts the array in place and returns it. *)
Definition sort {A : Type} (engine : Engine) (h : gmap ref (list A))
    (a : ref) (comparefn : A -> A -> Z) : gmap ref (list A) * ref :=
  (<[a := array_sort engine A comparefn (contents h a)]> h, a).

End JS.

(* ===================================================================== *)
(** ** DataTable.tsx *)
(* ===================================================================== *)

Module DataTable.
Import JS.

(** [T extends Record<string, any>] *)
Abbreviation Row := (gmap string Value).
Abbreviation Heap := (gmap ref (list (gmap string Value))).

(** [interface Column<T>]; [title], [width] and [render] only matter
    to the markup. *)
Record Column : Type := {
  key : string;
  title : string;
  sortable : option bool
}.

(** [type SortDirection = 'asc' | 'desc' | null] *)
Inductive SortDirection : Type := asc | desc | null.

#[global] Instance SortDirection_eq_dec : EqDecision SortDirection.
Proof. solve_decision. Defined.

(** [rowKey?: keyof T | ((record: T) => string | number)] *)
Inductive RowKey : Type :=
| KeyField (field : string)
| KeyFunction (f : Row -> Value).

(** The props the logic reads.  [onRowSelect] is optional. *)
Record Props : Type := {
  data : ref;
  rowKey : RowKey;
  onRowSelect : bool
}.

(** The three [useState] cells. *)
Record State : Type := {
  selectedRows : ref;
  sortColumn : option string;
  sortDirection : SortDirection
}.

Definition setSelectedRows (a : ref) (s : State) : State :=
  {| selectedRows := a;
     sortColumn := sortColumn s;
     sortDirection := sortDirection s |}.

Definition setSortColumn (c : option string) (s : State) : State :=
  {| selectedRows := selectedRows s;
     sortColumn := c;
     sortDirection := sortDirection s |}.

Definition setSortDirection (d : SortDirection) (s : State) : State :=
  {| selectedRows := selectedRows s;
     sortColumn := sortColumn s;
     sortDirection := d |}.

(** The sort state: the active column and its direction. *)
Definition sortState (s : State) : option string * SortDirection :=
  (sortColumn s, sortDirection s).

(** [rowKey = 'id'] *)
Definition default_rowKey : RowKey := KeyField "id".

(** [!column.sortable] *)
Definition not_sortable (column : Column) : bool :=
  match sortable column with
  | Some true => false
  | _ => true
  end.

(** [sortColumn === column.key] *)
Definition is_sort_column (s : State) (column : Column) : bool :=
  bool_decide (sortColumn s = Some (key column)).

(** [handleSort]: the setters are applied to the state of the render
    the handler was created in. *)
Definition handleSort (column : Column) (s : State) : State :=
  if not_sortable column then s
  else if is_sort_column s column then
    match sortDirection s with
    | asc => setSortDirection desc s
    | desc => setSortColumn None (setSortDirection null s)
    | null => setSortDirection asc s
    end
  else setSortDirection asc (setSortColumn (Some (key column)) s).

(** What the component owns between two events: the store of arrays,
    the hook state, and the arrays handed to [onRowSelect] so far. *)
Record World : Type := {
  heap : Heap;
  state : State;
  notified : list ref
}.

Section Component.

Variable engine : Engine.
Variable props : Props.

(** [getRowKey] *)
Definition getRowKey (record : Row) (index : nat) : Value :=
  match rowKey props with
  | KeyFunction f => f record
  | KeyField field => or_else (get record field) (VNum (Z.of_nat index))
  end.

(** The comparator handed to [sort] in [sortedData]. *)
Definition comparefn (sortColumn : string) (sortDirection : SortDirection)
    (a b : Row) : Z :=
  let aValue := get a sortColumn in
  let bValue := get b sortColumn in
  if strict_eq aValue bValue then 0
  else
    let comparison :=
      if lt (StringToNumber engine) aValue bValue then -1 else 1 in
    match sortDirection with
    | asc => comparison
    | _ => - comparison
    end.

(** [sortedData], the body of the [useMemo] callback.  An empty
    column name is falsy, as [null] is. *)
Definition sortedData (h : Heap) (sortColumn : option string)
    (sortDirection : SortDirection) : Heap * ref :=
  match sortColumn, sortDirection with
  | None, _ | _, null => (h, data props)
  | Some column, _ =>
      if negb (truthy (VStr column)) then (h, data props)
      else
        let '(h1, copy) := alloc h (contents h (data props)) in
        sort engine h1 copy (comparefn column sortDirection)
  end.

(** [onRowSelect?.(newSelectedRows)] *)
Definition call_onRowSelect (newSelectedRows : ref) (calls : list ref)
  : list ref :=
  if onRowSelect props then calls ++ [newSelectedRows] else calls.

(** [handleRowSelect] *)
Definition handleRowSelect (record : Row) (checked : bool) (w : World)
  : World :=
  let selected := contents (heap w) (selectedRows (state w)) in
  let '(h, newSelectedRows) :=
    if checked then alloc (heap w) (selected ++ [record])
    else
      alloc (heap w)
        (List.filter
           (fun row =>
              negb (strict_eq (getRowKey row 0) (getRowKey record 0)))
           selected) in
  {| heap := h;
     state := setSelectedRows newSelectedRows (state w);
     notified := call_onRowSelect newSelectedRows (notified w) |}.

(** [handleSelectAll]; [view] is the [sortedData] of the render the
    handler belongs to. *)
Definition handleSelectAll (view : ref) (checked : bool) (w : World)
  : World :=
  let '(h, newSelectedRows) :=
    if checked then alloc (heap w) (contents (heap w) view)
    else alloc (heap w) [] in
  {| heap := h;
     state := setSelectedRows newSelectedRows (state w);
     notified := call_onRowSelect newSelectedRows (notified w) |}.

(** [isRowSelected] *)
Definition isRowSelected (w : World) (record : Row) : bool :=
  existsb
    (fun row => strict_eq (getRowKey row 0) (getRowKey record 0))
    (contents (heap w) (selectedRows (state w))).

(** [isAllSelected] and [isIndeterminate] *)
Definition isAllSelected (w : World) (view : ref) : bool :=
  let n := length (contents (heap w) view) in
  let k := length (contents (heap w) (selectedRows (state w))) in
  (0 <? n)%nat && (k =? n)%nat.

Definition isIndeterminate (w : World) (view : ref) : bool :=
  let n := length (contents (heap w) view) in
  let k := length (contents (heap w) (selectedRows (state w))) in
  (0 <? k)%nat && (k <? n)%nat.

(** One render: the sorted view is recomputed from the current hook
    state (a memoised value may be recomputed at any render). *)
Definition render (w : World) : World * ref :=
  let '(h, view) :=
    sortedData (heap w) (sortColumn (state w)) (sortDirection (state w)) in
  ({| heap := h; state := state w; notified := notified w |}, view).

(** The events of the rendered table: a click (or Enter/Space) on a
    header, a row checkbox, the select-all checkbox, and a render
    caused by the host. *)
Inductive Event : Type :=
| HeaderClick (column : Column)
| RowCheckbox (record : Row) (checked : bool)
| SelectAllCheckbox (checked : bool)
| Rerender.

Definition step (w : World) (e : Event) : World :=
  let '(w1, view) := render w in
  match e with
  | HeaderClick column =>
      {| heap := heap w1;
         state := handleSort column (state w1);
         notified := notified w1 |}
  | RowCheckbox record checked => handleRowSelect record checked w1
  | SelectAllCheckbox checked => handleSelectAll view checked w1
  | Rerender => w1
  end.

Definition run (es : list Event) (w : World) : World :=
  fold_left step es w.

(** Events that only concern sorting. *)
Definition sort_event (e : Event) : bool :=
  match e with
  | HeaderClick _ | Rerender => true
  | RowCheckbox _ _ | SelectAllCheckbox _ => false
  end.

End Component.

(** The rows currently selected. *)
Definition selection (w : World) : list Row :=
  contents (heap w) (selectedRows (state w)).

(** The selection cell refers to an array of the store. *)
Definition selection_allocated (w : World) : Prop :=
  selectedRows (state w) ∈ dom (heap w).

(** First render: [useState([])], [useState(null)], [useState(null)]. *)
Definition mount (h : Heap) : World :=
  let '(h1, empty) := alloc h [] in
  {| heap := h1;
     state := {| selectedRows := empty;
                 sortColumn := None;
                 sortDirection := null |};
     notified := [] |}.

End DataTable.

(* ===================================================================== *)
(** ** InputField.tsx *)
(* ===================================================================== *)

Module InputField.
Import JS.

(** [type?: 'text' | 'password' | 'email' | 'number'] *)
Inductive InputType : Type := text | password | email | number.

#[global] Instance InputType_eq_dec : EqDecision InputType.
Proof. solve_decision. Defined.

(** The props read by the button container, with the defaults of the
    destructuring applied. *)
Record Props : Type := {
  value : string;
  disabled : bool;
  invalid : bool;
  loading : bool;
  type : InputType;
  clearable : bool;
  passwordToggle : bool
}.

(** The elements of the button container. *)
Inductive Element : Type :=
| LoadingSpinner
| ClearButton
| PasswordToggle (showPassword : bool).

(** What a JSX expression slot can evaluate to here. *)
Inductive Node : Type :=
| NValue (v : Value)
| NElement (e : Element).

Definition node_truthy (n : Node) : bool :=
  match n with
  | NValue v => truthy v
  | NElement _ => true
  end.

(** [a && b] *)
Definition and_then (a b : Node) : Node := if node_truthy a then b else a.

(** A boolean in a slot. *)
Definition B (b : bool) : Node := NValue (VBool b).

Infix "&&&" := and_then (at level 40, left associativity).

Section Render.
Variable props : Props.
Variable showPassword : bool.

(** [{loading && (<div role="status" />)}] *)
Definition loadingSpinner : Node :=
  B (loading props) &&& NElement LoadingSpinner.

(** [{clearable && value && !disabled && !loading && (<button/>)}] *)
Definition clearButton : Node :=
  B (clearable props) &&& NValue (VStr (value props))
    &&& B (negb (disabled props)) &&& B (negb (loading props))
    &&& NElement ClearButton.

(** [{(passwordToggle || type === 'password') && !disabled && !loading
      && (<button/>)}] *)
Definition passwordToggleButton : Node :=
  B (passwordToggle props || bool_decide (type props = password))
    &&& B (negb (disabled props)) &&& B (negb (loading props))
    &&& NElement (PasswordToggle showPassword).

(** [actualInputType] *)
Definition actualInputType : InputType :=
  if bool_decide (type props = password) && showPassword then text
  else type props.

End Render.

(** A slot shows something exactly when it evaluates to an element:
    [false] and the empty string render nothing. *)
Definition shows (n : Node) (e : Element) : Prop := n = NElement e.

End InputField.

(* ===================================================================== *)
(** ** Columns whose values have an order *)
(* ===================================================================== *)

Module Order.
Import JS DataTable.

Definition is_number (v : Value) : bool :=
  match v with VNum _ => true | _ => false end.

Definition is_string (v : Value) : bool :=
  match v with VStr _ => true | _ => false end.

Definition number_at (column : string) (r : Row) : Prop :=
  is_number (get r column) = true.

Definition string_at (column : string) (r : Row) : Prop :=
  is_string (get r column) = true.

(** Every row has a number other than [NaN] in the column, or every
    row has a string. *)
Definition comparable_column (column : string) (rows : list Row) : bool :=
  forallb (fun r => is_number (get r column)) rows
  || forallb (fun r => is_string (get r column)) rows.

End Order.

(* ===================================================================== *)
(** ** DataTable.tsx: what the markup is derived from *)
(* ===================================================================== *)

Module TableMarkup.
Import JS DataTable.

(** [aria-sort] of a header cell. *)
Inductive AriaSort : Type := ascending | descending | none.

Definition ariaSort (s : State) (column : Column) : AriaSort :=
  if is_sort_column s column then
    match sortDirection s with
    | asc => ascending
    | _ => descending
    end
  else none.

(** The arrow beside the title; only sortable columns have one. *)
Inductive Arrow : Type := up | down | both.

Definition sortArrow (s : State) (column : Column) : option Arrow :=
  if not_sortable column then None
  else
    Some (if is_sort_column s column then
            match sortDirection s with
            | asc => up
            | desc => down
            | null => both
            end
          else both).

(** [onKeyDown] of a header cell; the boolean tells whether
    [preventDefault] was called. *)
Definition onKeyDown (column : Column) (key : string) (s : State)
  : State * bool :=
  if negb (not_sortable column)
     && (String.eqb key "Enter" || String.eqb key " ")
  then (handleSort column s, true)
  else (s, false).

(** What the component returns: the skeleton while loading, the
    placeholder for an empty view, the table otherwise. *)
Inductive Screen : Type :=
| Skeleton
| EmptyState (emptyText : string)
| Table (rows : list Row).

Definition screen (loading : bool) (emptyText : string) (rows : list Row)
  : Screen :=
  if loading then Skeleton
  else if (length rows =? 0)%nat then EmptyState emptyText
  else Table rows.

(** [key] of the rendered rows: [getRowKey(record, index)] over the
    view. *)
Definition rowKeys (props : Props) (rows : list Row) : list Value :=
  imap (fun index record => getRowKey props record index) rows.

(** Column and direction are both set, or both none. *)
Definition sort_consistent (s : State) : Prop :=
  sortColumn s = None <-> sortDirection s = null.

Section Rendered.
Variable engine : Engine.
Variable props : Props.

(** The rows of the view of a render. *)
Definition viewRows (w : World) : list Row :=
  contents (heap (render engine props w).1)
           (render engine props w).2.

(** The header checkbox of a render: [checked] and [indeterminate]. *)
Definition headerCheckbox (w : World) : bool * bool :=
  let r := render engine props w in
  (isAllSelected r.1 r.2, isIndeterminate r.1 r.2).

End Rendered.

End TableMarkup.

(* ===================================================================== *)
(** ** InputField.tsx: classes, help text and handlers *)
(* ===================================================================== *)

Module InputFieldMarkup.
Import JS InputField.

(** [variant?: 'filled' | 'outlined' | 'ghost'] and
    [size?: 'sm' | 'md' | 'lg'] *)
Inductive Variant : Type := filled | outlined | ghost.
Inductive Size : Type := sm | md | lg.

#[global] Instance Variant_eq_dec : EqDecision Variant.
Proof. solve_decision. Defined.

#[global] Instance Size_eq_dec : EqDecision Size.
Proof. solve_decision. Defined.

(** The arguments [clsx] is called with here: a string, an object
    from class names to conditions, or [undefined]. *)
Inductive ClassValue : Type :=
| CString (s : string)
| CObject (entries : list (string * bool))
| CUndefined.

(** The class names one argument contributes. *)
Definition toVal (c : ClassValue) : list string :=
  match c with
  | CString s => if String.eqb s "" then [] else [s]
  | CObject entries => map fst (List.filter snd entries)
  | CUndefined => []
  end.

Definition classNames (args : list ClassValue) : list string :=
  flat_map toVal args.

(** [clsx(...args)] *)
Definition clsx (args : list ClassValue) : string :=
  String.concat " " (classNames args).

(** An optional string prop is truthy when given and not empty. *)
Definition given (o : option string) : bool :=
  match o with
  | Some s => negb (String.eqb s "")
  | None => false
  end.

Section Classes.
Variable props : Props.
Variable variant : Variant.
Variable size : Size.
Variable className : option string.
Variable focused : bool.

(** [clearable && value && !disabled] *)
Definition clearSlot : bool :=
  clearable props && negb (String.eqb (value props) "")
  && negb (disabled props).

(** [(type === 'password' || passwordToggle) && !disabled] *)
Definition toggleSlot : bool :=
  (bool_decide (type props = password) || passwordToggle props)
  && negb (disabled props).

(** The arguments of [clsx] in [getInputClasses]. *)
Definition inputClassArgs : list ClassValue :=
  [ CString "w-full transition-all duration-200 outline-none font-medium";
    CObject
      [ ("text-sm px-3 py-2 rounded-md", bool_decide (size = sm));
        ("text-base px-4 py-3 rounded-lg", bool_decide (size = md));
        ("text-lg px-5 py-4 rounded-xl", bool_decide (size = lg)) ];
    CObject
      [ ("bg-gray-100 dark:bg-gray-800 border border-transparent text-gray-900 dark:text-gray-100 placeholder:text-gray-500 dark:placeholder:text-gray-400",
         bool_decide (variant = filled) && negb (disabled props)
         && negb (invalid props));
        ("hover:bg-gray-50 dark:hover:bg-gray-750 focus:bg-white dark:focus:bg-gray-900",
         bool_decide (variant = filled) && negb (disabled props)
         && negb (invalid props));
        ("bg-transparent border border-gray-300 dark:border-gray-600 text-gray-900 dark:text-gray-100 placeholder:text-gray-500 dark:placeholder:text-gray-400",
         bool_decide (variant = outlined) && negb (disabled props)
         && negb (invalid props));
        ("hover:border-gray-400 dark:hover:border-gray-500",
         bool_decide (variant = outlined) && negb (disabled props)
         && negb (invalid props));
        ("bg-transparent border-none text-gray-900 dark:text-gray-100 placeholder:text-gray-500 dark:placeholder:text-gray-400 hover:bg-gray-50 dark:hover:bg-gray-800",
         bool_decide (variant = ghost) && negb (disabled props)
         && negb (invalid props)) ];
    CObject
      [ ("ring-2 ring-blue-500/20 border-blue-500 dark:ring-blue-400/20 dark:border-blue-400",
         focused && negb (invalid props) && negb (disabled props)
         && negb (bool_decide (variant = ghost)));
        ("ring-2 ring-blue-500/20 bg-gray-50 dark:bg-gray-800 dark:ring-blue-400/20",
         focused && negb (invalid props) && negb (disabled props)
         && bool_decide (variant = ghost)) ];
    CObject
      [ ("border-red-500 dark:border-red-400 ring-2 ring-red-500/20 dark:ring-red-400/20",
         invalid props && negb (disabled props));
        ("bg-red-50 dark:bg-red-900/10",
         invalid props && negb (disabled props)
         && bool_decide (variant = filled)) ];
    CObject
      [ ("opacity-60 cursor-not-allowed bg-gray-50 dark:bg-gray-900 border-gray-200 dark:border-gray-700 text-gray-400 dark:text-gray-500",
         disabled props) ];
    CObject
      [ ("pr-12", clearSlot || toggleSlot);
        ("pr-16", clearSlot && toggleSlot);
        ("pr-10",
         loading props
         && negb ((clearable props && negb (String.eqb (value props) ""))
                  || (bool_decide (type props = password)
                      || passwordToggle props))) ];
    match className with
    | Some c => CString c
    | None => CUndefined
    end ].

(** [getInputClasses] *)
Definition getInputClasses : string := clsx inputClassArgs.

End Classes.

(** The same props with another [invalid] flag. *)
Definition withInvalid (b : bool) (props : Props) : Props :=
  {| value := value props;
     disabled := disabled props;
     invalid := b;
     loading := loading props;
     type := type props;
     clearable := clearable props;
     passwordToggle := passwordToggle props |}.

(** [handleClear]: the value of the change event passed to [onChange],
    if it is called; [onChange] tells whether the prop is given. *)
Definition handleClear (props : Props) (onChange : bool) : option string :=
  if negb (disabled props) && onChange then Some "" else None.

(** [helpId] *)
Definition helpId (inputId : string) (helperText errorMessage : option string)
  : option string :=
  if given helperText || given errorMessage then Some (inputId +:+ "-help")
  else None.

(** The help element under the input: its [id], whether it has
    [role="alert"] (and the red classes), and its text. *)
Record Help : Type := {
  help_id : option string;
  help_alert : bool;
  help_text : option string
}.

(** [{(errorMessage || helperText) && (<div id={helpId} ...>)}] *)
Definition helpElement (inputId : string)
    (helperText errorMessage : option string) : option Help :=
  if given errorMessage || given helperText then
    Some {| help_id := helpId inputId helperText errorMessage;
            help_alert := given errorMessage;
            help_text := if given errorMessage then errorMessage
                         else helperText |}
  else None.

(** [aria-describedby] of the input. *)
Definition ariaDescribedby (inputId : string)
    (helperText errorMessage : option string) : option string :=
  helpId inputId helperText errorMessage.

End InputFieldMarkup.

(* ===================================================================== *)
(** ** Sorting by stable insertion is a sort *)
(* ===================================================================== *)

Module InsertionSort.
Import JS.

Section Insertion.
Context {A : Type} (comparefn : A -> A -> Z).

Lemma sort_insert_perm (x : A) (l : list A) :
  Permutation (x :: l) (sort_insert comparefn x l).
Proof.
  induction l as [|y l IH]; simpl; [done|].
  destruct (comparefn x y <=? 0); [done|].
  rewrite <- IH. apply perm_swap.
Qed.

Lemma sorted_list_perm (l : list A) :
  Permutation l (sorted_list comparefn l).
Proof.
  induction l as [|x l IH]; simpl; [done|].
  rewrite <- sort_insert_perm. by constructor.
Qed.

(** A consistent comparator is total and transitive on its elements. *)
Lemma consistent_total (l : list A) (a b : A) :
  consistent comparefn l -> a ∈ l -> b ∈ l ->
  0 < comparefn a b -> comparefn b a < 0.
Proof.
  intros (Hrefl & Hsym & _ & _ & Hgt) Ha Hb Hab.
  destruct (Z.lt_trichotomy (comparefn b a) 0) as [H|[H|H]]; [done| |].
  - apply (Hsym b a Hb Ha) in H. lia.
  - pose proof (Hgt a b a Ha Hb Ha Hab H) as Haa.
    rewrite (Hrefl a Ha) in Haa. lia.
Qed.

Lemma consistent_lt_gt (l : list A) (a b : A) :
  consistent comparefn l -> a ∈ l -> b ∈ l ->
  comparefn a b < 0 -> 0 < comparefn b a.
Proof.
  intros (Hrefl & Hsym & _ & Hlt & _) Ha Hb Hab.
  destruct (Z.lt_trichotomy (comparefn b a) 0) as [H|[H|H]]; [| |done].
  - pose proof (Hlt a b a Ha Hb Ha Hab H) as Haa.
    rewrite (Hrefl a Ha) in Haa. lia.
  - apply (Hsym b a Hb Ha) in H. lia.
Qed.

Lemma consistent_trans (l : list A) (a b c : A) :
  consistent comparefn l -> a ∈ l -> b ∈ l -> c ∈ l ->
  comparefn a b <= 0 -> comparefn b c <= 0 -> comparefn a c <= 0.
Proof.
  intros Hcons Ha Hb Hc Hab Hbc.
  pose proof Hcons as (Hrefl & Hsym & Heq & Hlt & Hgt).
  destruct (Z.lt_trichotomy (comparefn a c) 0) as [H|[H|H]]; [lia|lia|].
  exfalso.
  destruct (proj1 (Z.le_lteq _ _) Hab) as [Hab'|Hab'],
           (proj1 (Z.le_lteq _ _) Hbc) as [Hbc'|Hbc'].
  - pose proof (Hlt a b c Ha Hb Hc Hab' Hbc'). lia.
  - pose proof (consistent_lt_gt l a b Hcons Ha Hb Hab') as Hba.
    pose proof (Hgt b a c Hb Ha Hc Hba H) as Hbc2. lia.
  - pose proof (consistent_lt_gt l b c Hcons Hb Hc Hbc') as Hcb.
    pose proof (Hgt a c b Ha Hc Hb H Hcb) as Hab2. lia.
  - pose proof (Heq a b c Ha Hb Hc Hab' Hbc'). lia.
Qed.

Lemma sort_insert_ordered (l0 : list A) (x : A) (l : list A) :
  consistent comparefn l0 -> x ∈ l0 -> (forall y, y ∈ l -> y ∈ l0) ->
  StronglySorted (in_order comparefn) l ->
  StronglySorted (in_order comparefn) (sort_insert comparefn x l).
Proof.
  intros Hcons Hx Hl HS. induction HS as [|y l HS IH Hy]; simpl.
  - repeat constructor.
  - assert (Hy0 : y ∈ l0) by (apply Hl; left).
    assert (Hl' : forall z, z ∈ l -> z ∈ l0) by (intros z Hz; apply Hl; by right).
    destruct (Z.leb_spec (comparefn x y) 0) as [Hle|Hgt].
    + constructor; [by constructor|].
      constructor; [done|].
      rewrite Forall_forall in *. intros z Hz.
      apply (consistent_trans l0 x y z); auto. by apply Hy.
    + constructor; [by apply IH|].
      rewrite <- sort_insert_perm.
      constructor; [|done]. unfold in_order.
      pose proof (consistent_total l0 x y Hcons Hx Hy0 Hgt). lia.
Qed.

Lemma sorted_list_ordered (l : list A) :
  consistent comparefn l ->
  StronglySorted (in_order comparefn) (sorted_list comparefn l).
Proof.
  intros Hcons.
  assert (H : forall l', (forall y, y ∈ l' -> y ∈ l) ->
            StronglySorted (in_order comparefn) (sorted_list comparefn l')).
  { induction l' as [|x l' IH]; intros Hl'; simpl; [constructor|].
    apply (sort_insert_ordered l); [done|apply Hl'; left| |].
    - intros y Hy. apply Hl'. right. by rewrite sorted_list_perm.
    - apply IH. intros y Hy. apply Hl'. by right. }
  by apply H.
Qed.

Lemma sort_insert_stable (l0 : list A) (a x : A) (l : list A) :
  consistent comparefn l0 -> a ∈ l0 -> x ∈ l0 ->
  (forall y, y ∈ l -> y ∈ l0) ->
  List.filter (fun y => comparefn a y =? 0) (sort_insert comparefn x l)
  = List.filter (fun y => comparefn a y =? 0) (x :: l).
Proof.
  intros Hcons Ha Hx Hl. induction l as [|y l IH]; simpl; [done|].
  assert (Hy : y ∈ l0) by (apply Hl; left).
  destruct (Z.leb_spec (comparefn x y) 0) as [Hle|Hgt]; simpl; [done|].
  rewrite IH by (intros z Hz; apply Hl; by right). simpl.
  destruct (Z.eqb_spec (comparefn a x) 0) as [Eax|Eax],
           (Z.eqb_spec (comparefn a y) 0) as [Eay|Eay]; try done.
  exfalso. destruct Hcons as (_ & Hsym & Heq & _ & _).
  pose proof (Heq x a y Hx Ha Hy (Hsym a x Ha Hx Eax) Eay). lia.
Qed.

Lemma sorted_list_stable (l : list A) (a : A) :
  consistent comparefn l -> a ∈ l ->
  List.filter (fun x => comparefn a x =? 0) (sorted_list comparefn l)
  = List.filter (fun x => comparefn a x =? 0) l.
Proof.
  intros Hcons Ha.
  assert (H : forall l', (forall y, y ∈ l' -> y ∈ l) ->
            List.filter (fun x => comparefn a x =? 0)
              (sorted_list comparefn l')
            = List.filter (fun x => comparefn a x =? 0) l').
  { induction l' as [|x l' IH]; intros Hl'; simpl; [done|].
    assert (Hx : x ∈ l) by (apply Hl'; left).
    assert (Hs : forall y, y ∈ sorted_list comparefn l' -> y ∈ l).
    { intros y Hy. apply Hl'. right. by rewrite sorted_list_perm. }
    rewrite (sort_insert_stable l a x _ Hcons Ha Hx Hs).
    simpl. rewrite IH by (intros y Hy; apply Hl'; by right). done. }
  by apply H.
Qed.

End Insertion.

End InsertionSort.

(* ===================================================================== *)
(** ** Sample data, after DataTable.stories.tsx *)
(* ===================================================================== *)

Module Sample.
Import JS DataTable InsertionSort.

Definition user (id : Z) (name : string) : Row :=
  {[ "id" := VNum id; "name" := VStr name ]}.

Definition sampleUsers : list Row :=
  [user 1 "John Doe"; user 2 "Jane Smith"; user 3 "Bob Johnson"].

Definition idColumn : Column :=
  {| key := "id"; title := "ID"; sortable := Some true |}.

Definition nameColumn : Column :=
  {| key := "name"; title := "Name"; sortable := Some true |}.

(** The host's store holds the data array at reference 1. *)
Definition store : Heap := {[ 1%positive := sampleUsers ]}.

Definition props : Props :=
  {| data := 1%positive; rowKey := default_rowKey; onRowSelect := true |}.

(** A sample engine: it reads unsigned decimal literals as numbers and
    sorts by stable insertion. *)
Definition digit (c : Ascii.ascii) : option Z :=
  let n := Z.of_N (Ascii.N_of_ascii c) in
  if (48 <=? n) && (n <=? 57) then Some (n - 48) else None.

Fixpoint digits (acc : Z) (s : string) : option Z :=
  match s with
  | EmptyString => Some acc
  | String c s' =>
      match digit c with
      | Some d => digits (10 * acc + d) s'
      | None => None
      end
  end.

Definition engine : Engine :=
  {| StringToNumber := digits 0;
     array_sort := @sorted_list;
     array_sort_permutation := @sorted_list_perm;
     array_sort_ordered := @sorted_list_ordered;
     array_sort_stable := @sorted_list_stable |}.

End Sample.

(* ===================================================================== *)
(** ** Properties of the table's sort state *)
(* ===================================================================== *)

Module SortStateFacts.
Import JS DataTable.

Lemma sortState_inv (s : State) (c : option string) (d : SortDirection) :
  sortState s = (c, d) -> sortColumn s = c /\ sortDirection s = d.
Proof. unfold sortState. intros E. by injection E. Qed.

Lemma is_sort_column_true (s : State) (C : Column) :
  sortColumn s = Some (key C) -> is_sort_column s C = true.
Proof. intros E. unfold is_sort_column. by apply bool_decide_eq_true_2. Qed.

Lemma is_sort_column_false (s : State) (C : Column) :
  sortColumn s <> Some (key C) -> is_sort_column s C = false.
Proof. intros E. unfold is_sort_column. by apply bool_decide_eq_false_2. Qed.

Lemma not_sortable_false (C : Column) :
  sortable C = Some true -> not_sortable C = false.
Proof. intros E. unfold not_sortable. by rewrite E. Qed.

(** A header that is not the sort column starts an ascending sort. *)
Lemma handleSort_other (C : Column) (s : State) :
  sortable C = Some true -> sortColumn s <> Some (key C) ->
  sortState (handleSort C s) = (Some (key C), asc).
Proof.
  intros HC Hne. unfold handleSort.
  by rewrite (not_sortable_false _ HC), (is_sort_column_false _ _ Hne).
Qed.

(** The sort column, clicked again, moves one step in its cycle. *)
Lemma handleSort_same (C : Column) (s : State) :
  sortable C = Some true -> sortColumn s = Some (key C) ->
  sortState (handleSort C s) =
    match sortDirection s with
    | asc => (Some (key C), desc)
    | desc => (None, null)
    | null => (Some (key C), asc)
    end.
Proof.
  intros HC He. unfold handleSort.
  rewrite (not_sortable_false _ HC), (is_sort_column_true _ _ He).
  destruct s as [sel col dir]; simpl in *; subst col; by destruct dir.
Qed.

(** A column that is not sortable leaves the state as it is. *)
Lemma handleSort_not_sortable (C : Column) (s : State) :
  sortable C <> Some true -> handleSort C s = s.
Proof.
  intros HC. unfold handleSort, not_sortable.
  destruct (sortable C) as [[|]|]; congruence.
Qed.

(** [handleSort] never touches the selection. *)
Lemma handleSort_selectedRows (C : Column) (s : State) :
  selectedRows (handleSort C s) = selectedRows s.
Proof.
  unfold handleSort.
  destruct (not_sortable C); [done|].
  destruct (is_sort_column s C); [|done].
  by destruct (sortDirection s).
Qed.

(** Three clicks on the same sortable header, starting without a sort,
    end without a sort. *)
Lemma handleSort_thrice (C : Column) (s0 : State) :
  sortable C = Some true ->
  sortState s0 = (None, null) ->
  sortState (handleSort C (handleSort C (handleSort C s0))) = (None, null).
Proof.
  intros HC H0.
  destruct (sortState_inv _ _ _ H0) as [Hc0 _].
  assert (H1 : sortState (handleSort C s0) = (Some (key C), asc)).
  { apply handleSort_other; [done|]. by rewrite Hc0. }
  destruct (sortState_inv _ _ _ H1) as [Hc1 Hd1].
  pose proof (handleSort_same C _ HC Hc1) as H2. rewrite Hd1 in H2.
  destruct (sortState_inv _ _ _ H2) as [Hc2 Hd2].
  rewrite (handleSort_same C _ HC Hc2). by rewrite Hd2.
Qed.

(** C1.  Sort cycle closure: from the state with no sort column and no
    direction, activating a sortable column [C] three times gives
    [{C, asc}], then [{C, desc}], then [{none, none}], and a fourth
    activation gives [{C, asc}] again. *)
Theorem sort_cycle_closure (C : Column) (s0 : State) :
  sortable C = Some true ->
  sortState s0 = (None, null) ->
  let s1 := handleSort C s0 in
  let s2 := handleSort C s1 in
  let s3 := handleSort C s2 in
  let s4 := handleSort C s3 in
  sortState s1 = (Some (key C), asc) /\
  sortState s2 = (Some (key C), desc) /\
  sortState s3 = (None, null) /\
  sortState s4 = (Some (key C), asc).
Proof.
  intros HC H0 s1 s2 s3 s4.
  destruct (sortState_inv _ _ _ H0) as [Hc0 _].
  assert (H1 : sortState s1 = (Some (key C), asc)).
  { apply handleSort_other; [done|]. by rewrite Hc0. }
  destruct (sortState_inv _ _ _ H1) as [Hc1 Hd1].
  assert (H2 : sortState s2 = (Some (key C), desc)).
  { unfold s2. rewrite (handleSort_same C s1 HC Hc1). by rewrite Hd1. }
  destruct (sortState_inv _ _ _ H2) as [Hc2 Hd2].
  assert (H3 : sortState s3 = (None, null)).
  { unfold s3. rewrite (handleSort_same C s2 HC Hc2). by rewrite Hd2. }
  destruct (sortState_inv _ _ _ H3) as [Hc3 _].
  repeat split; try done.
  apply handleSort_other; [done|]. by rewrite Hc3.
Qed.

Lemma sort_cycle_closure_witness :
  let C := {| key := "name"; title := "Name"; sortable := Some true |} in
  let s0 := {| selectedRows := 1%positive;
               sortColumn := None; sortDirection := null |} in
  sortState (handleSort C s0) = (Some "name", asc) /\
  sortState (handleSort C (handleSort C s0)) = (Some "name", desc) /\
  sortState (handleSort C (handleSort C (handleSort C s0))) = (None, null) /\
  sortState (handleSort C (handleSort C (handleSort C (handleSort C s0))))
    = (Some "name", asc).
Proof.
  intros C s0.
  exact (sort_cycle_closure C s0 eq_refl eq_refl).
Defined.

(** C2.  Sort-switch reset: when the sort state is [{C1, d}], for any
    direction [d], activating a sortable column [C2] other than [C1]
    gives [{C2, asc}] at once; the result does not depend on [d]. *)
Theorem sort_switch_reset (C1 C2 : Column) (d : SortDirection) (s : State) :
  sortable C1 = Some true ->
  sortable C2 = Some true ->
  key C1 <> key C2 ->
  sortState s = (Some (key C1), d) ->
  sortState (handleSort C2 s) = (Some (key C2), asc).
Proof.
  intros _ HC2 Hne Hs. apply handleSort_other; [done|].
  destruct (sortState_inv _ _ _ Hs) as [Hc _]. rewrite Hc. congruence.
Qed.

Lemma sort_switch_reset_witness :
  let C1 := {| key := "name"; title := "Name"; sortable := Some true |} in
  let C2 := {| key := "email"; title := "Email"; sortable := Some true |} in
  let s := {| selectedRows := 1%positive;
              sortColumn := Some "name"; sortDirection := desc |} in
  sortState (handleSort C2 s) = (Some "email", asc).
Proof.
  intros C1 C2 s.
  apply (sort_switch_reset C1 C2 desc s).
  - reflexivity.
  - reflexivity.
  - simpl. discriminate.
  - reflexivity.
Defined.

End SortStateFacts.

(* ===================================================================== *)
(** ** Properties of the array store *)
(* ===================================================================== *)

Module ArrayFacts.
Import JS.

Section Store.
Context {A : Type}.
Implicit Types (h : gmap ref (list A)) (a b : ref) (xs : list A).

Lemma alloc_fresh h xs : (alloc h xs).2 ∉ dom h.
Proof. simpl. apply is_fresh. Qed.

Lemma alloc_lookup_new h xs : (alloc h xs).1 !! (alloc h xs).2 = Some xs.
Proof. simpl. apply lookup_insert_eq. Qed.

Lemma alloc_lookup_old h xs a :
  a ∈ dom h -> (alloc h xs).1 !! a = h !! a.
Proof.
  intros Ha. simpl. apply lookup_insert_ne.
  intros E. apply (alloc_fresh h xs). simpl. by rewrite E.
Qed.

Lemma alloc_dom h xs a : a ∈ dom h -> a ∈ dom (alloc h xs).1.
Proof. intros Ha. simpl. rewrite dom_insert_L. set_solver. Qed.

Lemma alloc_contents_new h xs :
  contents (alloc h xs).1 (alloc h xs).2 = xs.
Proof. unfold contents. by rewrite alloc_lookup_new. Qed.

Lemma alloc_contents_old h xs a :
  a ∈ dom h -> contents (alloc h xs).1 a = contents h a.
Proof. intros Ha. unfold contents. by rewrite alloc_lookup_old. Qed.

Lemma sort_lookup_other (engine : Engine) h a b (comparefn : A -> A -> Z) :
  b <> a -> (sort engine h a comparefn).1 !! b = h !! b.
Proof. intros Hne. simpl. by apply lookup_insert_ne. Qed.

Lemma sort_lookup_same (engine : Engine) h a (comparefn : A -> A -> Z) :
  (sort engine h a comparefn).1 !! a
  = Some (array_sort engine A comparefn (contents h a)).
Proof. simpl. apply lookup_insert_eq. Qed.

Lemma sort_dom (engine : Engine) h a b (comparefn : A -> A -> Z) :
  b ∈ dom h -> b ∈ dom (sort engine h a comparefn).1.
Proof. intros Hb. simpl. rewrite dom_insert_L. set_solver. Qed.

End Store.

End ArrayFacts.

(* ===================================================================== *)
(** ** Properties of the sorted view *)
(* ===================================================================== *)

Module ViewFacts.
Import JS DataTable ArrayFacts SortStateFacts.

Section View.
Variable engine : Engine.
Variable props : Props.

Abbreviation sortedData := (sortedData engine props).

(** With no column, or no direction, the view is [data] itself. *)
Lemma sortedData_inactive (h : Heap) (c : option string)
    (d : SortDirection) :
  c = None \/ d = null -> sortedData h c d = (h, data props).
Proof.
  intros [-> | ->]; unfold DataTable.sortedData; [done|].
  by destruct c.
Qed.

(** An active sort works on a copy. *)
Lemma sortedData_active (h : Heap) (column : string) (d : SortDirection) :
  column <> "" -> d <> null ->
  sortedData h (Some column) d
  = sort engine (alloc h (contents h (data props))).1
         (alloc h (contents h (data props))).2
         (comparefn engine column d).
Proof.
  intros Hc Hd. unfold DataTable.sortedData.
  destruct d; [| |done].
  - simpl. destruct (String.eqb_spec column ""); [done|]. done.
  - simpl. destruct (String.eqb_spec column ""); [done|]. done.
Qed.

(** Whatever the sort state, computing the view leaves every array
    that already exists as it is. *)
Lemma sortedData_frame (h : Heap) (c : option string) (d : SortDirection)
    (a : ref) :
  a ∈ dom h -> (sortedData h c d).1 !! a = h !! a.
Proof.
  intros Ha. unfold DataTable.sortedData.
  destruct c as [column|]; [|done].
  destruct d; [| |done].
  all: destruct (negb (truthy (VStr column))); [done|].
  all: simpl; rewrite lookup_insert_ne;
    [by apply (alloc_lookup_old h _ a)|].
  all: intros E; apply (is_fresh (dom h)); by rewrite E.
Qed.

Lemma sortedData_dom (h : Heap) (c : option string) (d : SortDirection)
    (a : ref) :
  a ∈ dom h -> a ∈ dom (sortedData h c d).1.
Proof.
  intros Ha. apply elem_of_dom. rewrite sortedData_frame by done.
  by apply elem_of_dom.
Qed.

End View.

(** C4.  Passthrough when unsorted: if the sort column is none or the
    direction is none, the view is [data] itself, and nothing in the
    store has changed, so the rows are those of the input in the
    input's order; in particular this is the view after the third
    activation of a sortable column. *)
Theorem unsorted_passthrough
    (engine : Engine) (props : Props) (h : Heap) :
  (forall (c : option string) (d : SortDirection),
      c = None \/ d = null ->
      sortedData engine props h c d = (h, data props)) /\
  (forall (C : Column) (s0 : State),
      sortable C = Some true ->
      sortState s0 = (None, null) ->
      let s3 := handleSort C (handleSort C (handleSort C s0)) in
      sortedData engine props h (sortColumn s3) (sortDirection s3)
      = (h, data props)).
Proof.
  split.
  - intros c d Hcd. by apply sortedData_inactive.
  - intros C s0 HC H0 s3.
    apply sortedData_inactive. left.
    by destruct (sortState_inv _ _ _ (handleSort_thrice C s0 HC H0)).
Qed.

Lemma unsorted_passthrough_witness :
  sortedData Sample.engine Sample.props Sample.store
    (Some "name") null
  = (Sample.store, data Sample.props) /\
  (let s0 := state (mount Sample.store) in
   let s3 := handleSort Sample.nameColumn
               (handleSort Sample.nameColumn
                  (handleSort Sample.nameColumn s0)) in
   sortedData Sample.engine Sample.props Sample.store
     (sortColumn s3) (sortDirection s3)
   = (Sample.store, data Sample.props)).
Proof.
  destruct (unsorted_passthrough Sample.engine Sample.props
              Sample.store) as [Hpass Hthird].
  split.
  - apply Hpass. by right.
  - apply Hthird; reflexivity.
Defined.

End ViewFacts.

(* ===================================================================== *)
(** ** Properties of row identity and of the selection *)
(* ===================================================================== *)

Module SelectionFacts.
Import JS DataTable ArrayFacts SortStateFacts ViewFacts.

(** [===] holds between a value and itself, [NaN] excepted. *)
Lemma strict_eq_true (v w : Value) :
  strict_eq v w = true <-> v = w /\ w <> VNaN.
Proof.
  unfold strict_eq. split.
  - intros H. destruct v, w; try discriminate H;
      apply bool_decide_eq_true in H; by split.
  - intros [-> Hw]. destruct w; try done; by apply bool_decide_eq_true.
Qed.

Lemma strict_eq_refl (v : Value) : v <> VNaN -> strict_eq v v = true.
Proof. intros Hv. by apply strict_eq_true. Qed.

Lemma strict_eq_sym (v u : Value) : strict_eq v u = strict_eq u v.
Proof.
  destruct (strict_eq v u) eqn:E1, (strict_eq u v) eqn:E2; try done.
  - apply strict_eq_true in E1 as [-> Hu].
    by rewrite (strict_eq_refl u Hu) in E2.
  - apply strict_eq_true in E2 as [-> Hv].
    by rewrite (strict_eq_refl v Hv) in E1.
Qed.

Section Selection.
Variable props : Props.

Lemma getRowKey_field (field : string) (record : Row) (index : nat) :
  rowKey props = KeyField field ->
  getRowKey props record index
  = or_else (get record field) (VNum (Z.of_nat index)).
Proof. intros E. unfold getRowKey. by rewrite E. Qed.

Lemma getRowKey_falsy (field : string) (record : Row) (index : nat) :
  rowKey props = KeyField field ->
  truthy (get record field) = false ->
  getRowKey props record index = VNum (Z.of_nat index).
Proof.
  intros E F. rewrite (getRowKey_field field) by done.
  unfold or_else. by rewrite F.
Qed.

Lemma selection_handleRowSelect_checked (record : Row) (w : World) :
  selection (handleRowSelect props record true w)
  = (selection w ++ [record])%list.
Proof. unfold selection, handleRowSelect. simpl. apply alloc_contents_new. Qed.

Lemma selection_handleRowSelect_unchecked (record : Row) (w : World) :
  selection (handleRowSelect props record false w)
  = List.filter
      (fun row =>
         negb (strict_eq (getRowKey props row 0)
                         (getRowKey props record 0)))
      (selection w).
Proof. unfold selection, handleRowSelect. simpl. apply alloc_contents_new. Qed.

Lemma isRowSelected_spec (w : World) (record : Row) :
  isRowSelected props w record = true <->
  exists row, row ∈ selection w /\
              getRowKey props row 0 = getRowKey props record 0 /\
              getRowKey props record 0 <> VNaN.
Proof.
  unfold isRowSelected. rewrite existsb_exists. fold (selection w).
  split.
  - intros (row & Hin & Hk). exists row.
    split; [by apply list_elem_of_In|by apply strict_eq_true].
  - intros (row & Hin & Hk). exists row.
    split; [by apply list_elem_of_In|by apply strict_eq_true].
Qed.

End Selection.

(** C5.  Select-all: checking the box makes the selection a new array
    holding exactly the rows of the current view, in the view's order
    (so the two have the same length), the view being the sorted
    sequence of the render; unchecking it makes the selection empty,
    whatever was selected before. *)
Theorem toggleAll_semantics (props : Props) (view : ref) (w : World) :
  let on := handleSelectAll props view true w in
  let off := handleSelectAll props view false w in
  selection on = contents (heap w) view /\
  length (selection on) = length (contents (heap w) view) /\
  (selectedRows (state on) ∉ dom (heap w)) /\
  selection off = [] /\
  (forall engine : Engine,
      selection (step engine props w (SelectAllCheckbox true))
      = contents (heap (render engine props w).1)
                 (render engine props w).2).
Proof.
  intros on off.
  assert (Hon : selection on = contents (heap w) view).
  { unfold on, selection, handleSelectAll. simpl. apply alloc_contents_new. }
  split; [done|]. split; [by rewrite Hon|].
  split; [apply is_fresh|].
  split.
  { unfold off, selection, handleSelectAll. simpl. apply alloc_contents_new. }
  intros engine. unfold step.
  destruct (render engine props w) as [w1 v]. simpl.
  unfold selection, handleSelectAll. simpl. apply alloc_contents_new.
Qed.

(** C6, as amended.  [isRowSelected record] is true exactly when some
    selected row resolves to the same row key as [record] and that key
    is not [NaN]; both keys are resolved by [getRowKey] at index 0, as
    the test does. *)
Theorem isRowSelected_iff (props : Props) (w : World) (record : Row) :
  isRowSelected props w record = true <->
  exists row, row ∈ selection w /\
              getRowKey props row 0 = getRowKey props record 0 /\
              getRowKey props record 0 <> VNaN.
Proof.
  unfold isRowSelected. rewrite existsb_exists. fold (selection w).
  split.
  - intros (row & Hin & Hk). exists row.
    apply strict_eq_true in Hk. by rewrite list_elem_of_In.
  - intros (row & Hin & Hk). exists row.
    apply strict_eq_true in Hk. by rewrite <- list_elem_of_In.
Qed.

(** C6, as stated, fails.  With a key function that returns [NaN], a
    row that has just been checked is in the selection and resolves to
    the same key as itself, yet does not count as selected. *)
Lemma isRowSelected_NaN_counterexample :
  let props := {| data := 1%positive;
                  rowKey := KeyFunction (fun _ => VNaN);
                  onRowSelect := false |} in
  let r := Sample.user 1 "John Doe" in
  let w := handleRowSelect props r true (mount Sample.store) in
  (exists row, row ∈ selection w /\
               getRowKey props row 0 = getRowKey props r 0) /\
  isRowSelected props w r = false.
Proof.
  intros props r w. split.
  - exists r. split; [|reflexivity].
    unfold w. rewrite selection_handleRowSelect_checked.
    apply elem_of_app. right. by apply list_elem_of_singleton.
  - vm_compute. reflexivity.
Qed.

(** C7.  Row-key fallback: with a field name as key selector, the key
    of a record is its value at that field when that value is present
    and truthy, and the positional index otherwise; so a record
    without the field at index 2 has key 2. *)
Theorem getRowKey_fallback (props : Props) (field : string)
    (record : Row) (index : nat) :
  rowKey props = KeyField field ->
  (truthy (get record field) = true ->
     getRowKey props record index = get record field) /\
  (truthy (get record field) = false ->
     getRowKey props record index = VNum (Z.of_nat index)) /\
  (record !! field = None ->
     getRowKey props record index = VNum (Z.of_nat index)).
Proof.
  intros E. rewrite (getRowKey_field props field) by done.
  unfold or_else. repeat split.
  - by intros ->.
  - by intros ->.
  - intros Habs. unfold get. by rewrite Habs.
Qed.

Lemma getRowKey_fallback_witness :
  let props := {| data := 1%positive; rowKey := default_rowKey;
                  onRowSelect := false |} in
  let record : Row := {[ "name" := VStr "Bob" ]} in
  record !! "id" = None /\ getRowKey props record 2 = VNum 2.
Proof.
  intros props record.
  assert (Habs : record !! "id" = None) by reflexivity.
  split; [exact Habs|].
  exact (proj2 (proj2 (getRowKey_fallback props "id" record 2 eq_refl)) Habs).
Defined.

(** C9.  Key collision: with a field name as key selector, two records
    (in particular two different ones) whose value at that field is
    absent or falsy both resolve to key 0 in membership tests and in
    removal; so once [r1] is checked, [r2] counts as selected, and
    unchecking [r2] removes [r1] from the selection. *)
Theorem key_collision_aliasing (props : Props) (field : string)
    (r1 r2 : Row) (w : World) :
  rowKey props = KeyField field ->
  truthy (get r1 field) = false ->
  truthy (get r2 field) = false ->
  r1 <> r2 ->
  let w1 := handleRowSelect props r1 true w in
  let w2 := handleRowSelect props r2 false w1 in
  getRowKey props r1 0 = VNum 0 /\
  getRowKey props r2 0 = VNum 0 /\
  (r1 ∈ selection w1) /\
  isRowSelected props w1 r2 = true /\
  (r1 ∉ selection w2).
Proof.
  intros E F1 F2 _ w1 w2.
  pose proof (getRowKey_falsy props field r1 0 E F1) as K1.
  pose proof (getRowKey_falsy props field r2 0 E F2) as K2.
  assert (Hin : r1 ∈ selection w1).
  { unfold w1. rewrite selection_handleRowSelect_checked.
    apply elem_of_app. right. by apply list_elem_of_singleton. }
  repeat split; try done.
  - apply isRowSelected_spec. exists r1. split; [done|]. by rewrite K1, K2.

  - unfold w2. rewrite selection_handleRowSelect_unchecked.
    rewrite list_elem_of_In, filter_In. intros [_ Hk].
    rewrite K1, K2 in Hk. by vm_compute in Hk.
Qed.

Lemma key_collision_aliasing_witness :
  let props := {| data := 1%positive; rowKey := default_rowKey;
                  onRowSelect := false |} in
  let r1 : Row := {[ "name" := VStr "Ann" ]} in
  let r2 : Row := {[ "name" := VStr "Bob"; "id" := VNum 0 ]} in
  let w := mount ∅ in
  isRowSelected props (handleRowSelect props r1 true w) r2 = true /\
  (r1 ∉ selection
          (handleRowSelect props r2 false (handleRowSelect props r1 true w))).
Proof.
  intros props r1 r2 w.
  assert (Hne : r1 <> r2).
  { intros Heq. apply (f_equal (fun r : Row => r !! "id")) in Heq.
    vm_compute in Heq. discriminate Heq. }
  destruct (key_collision_aliasing props "id" r1 r2 w
              eq_refl eq_refl eq_refl Hne) as (_ & _ & _ & H4 & H5).
  split; [exact H4|exact H5].
Defined.

End SelectionFacts.

(* ===================================================================== *)
(** ** Sorting and selection do not interfere *)
(* ===================================================================== *)

Module SortSelectionFacts.
Import JS DataTable ArrayFacts SortStateFacts ViewFacts SelectionFacts.

Section Frame.
Variable engine : Engine.
Variable props : Props.

Abbreviation render := (render engine props).
Abbreviation step := (step engine props).
Abbreviation run := (run engine props).

Lemma render_state (w : World) : state (render w).1 = state w.
Proof.
  unfold DataTable.render.
  by destruct (sortedData engine props (heap w) _ _).
Qed.

Lemma render_notified (w : World) : notified (render w).1 = notified w.
Proof.
  unfold DataTable.render.
  by destruct (sortedData engine props (heap w) _ _).
Qed.

Lemma render_heap (w : World) :
  heap (render w).1
  = (sortedData engine props (heap w)
       (sortColumn (state w)) (sortDirection (state w))).1.
Proof.
  unfold DataTable.render.
  by destruct (sortedData engine props (heap w) _ _).
Qed.

(** A sort event leaves the selection cell, every existing array
    and the list of [onRowSelect] calls as they were. *)
Lemma step_sort_event (w : World) (e : Event) :
  sort_event e = true ->
  selectedRows (state (step w e)) = selectedRows (state w) /\
  notified (step w e) = notified w /\
  (forall a, a ∈ dom (heap w) ->
     a ∈ dom (heap (step w e)) /\ heap (step w e) !! a = heap w !! a).
Proof.
  intros He. unfold DataTable.step.
  pose proof (render_state w) as Hs.
  pose proof (render_notified w) as Hn.
  pose proof (render_heap w) as Hh.
  destruct (render w) as [w1 view]. simpl in Hs, Hn, Hh.
  assert (Hframe : forall a, a ∈ dom (heap w) ->
            a ∈ dom (heap w1) /\ heap w1 !! a = heap w !! a).
  { intros a Ha. rewrite Hh.
    split; [by apply sortedData_dom|by apply sortedData_frame]. }
  destruct e as [column| | |]; try discriminate He; simpl.
  - rewrite handleSort_selectedRows, Hs. auto.
  - rewrite Hs. auto.
Qed.

Lemma run_sort_events (es : list Event) (w : World) :
  forallb sort_event es = true ->
  selectedRows (state (run es w)) = selectedRows (state w) /\
  notified (run es w) = notified w /\
  (forall a, a ∈ dom (heap w) ->
     a ∈ dom (heap (run es w)) /\ heap (run es w) !! a = heap w !! a).
Proof.
  revert w. induction es as [|e es IH]; intros w Hes; simpl.
  - auto.
  - apply andb_prop in Hes as [He Hes].
    destruct (step_sort_event w e He) as (Hs & Hn & Hf).
    destruct (IH (step w e) Hes) as (Hs' & Hn' & Hf').
    unfold DataTable.run in *. simpl.
    split; [by rewrite Hs'|]. split; [by rewrite Hn'|].
    intros a Ha. destruct (Hf a Ha) as [Hd Hl].
    destruct (Hf' a Hd) as [Hd' Hl']. split; [done|by rewrite Hl'].
Qed.

(** The selection cell always refers to an existing array: at mount
    and after every event. *)
Lemma mount_allocated (h : Heap) : selection_allocated (mount h).
Proof.
  unfold selection_allocated, mount. simpl.
  rewrite dom_insert_L. set_solver.
Qed.

Lemma handleRowSelect_allocated (record : Row) (checked : bool) (w : World) :
  selection_allocated (handleRowSelect props record checked w).
Proof.
  unfold selection_allocated, handleRowSelect.
  destruct checked; simpl; rewrite dom_insert_L; set_solver.
Qed.

Lemma handleSelectAll_allocated (view : ref) (checked : bool) (w : World) :
  selection_allocated (handleSelectAll props view checked w).
Proof.
  unfold selection_allocated, handleSelectAll.
  destruct checked; simpl; rewrite dom_insert_L; set_solver.
Qed.

Lemma step_allocated (w : World) (e : Event) :
  selection_allocated w -> selection_allocated (step w e).
Proof.
  intros Hw. destruct (sort_event e) eqn:He.
  - destruct (step_sort_event w e He) as (Hs & _ & Hf).
    unfold selection_allocated. rewrite Hs. by apply Hf.
  - unfold DataTable.step. destruct (render w) as [w1 view].
    destruct e as [column|record checked|checked|]; try discriminate He.
    + apply handleRowSelect_allocated.
    + apply handleSelectAll_allocated.
Qed.

Lemma run_allocated (es : list Event) (w : World) :
  selection_allocated w -> selection_allocated (run es w).
Proof.
  revert w. induction es as [|e es IH]; intros w Hw; [done|].
  apply IH. by apply step_allocated.
Qed.

End Frame.

(** C3.  Selection is independent of the sort order: whatever headers
    are activated and however often the sorted view is recomputed, the
    selection stays the same array with the same rows, so every record
    is selected afterwards exactly if it was before, and [onRowSelect]
    is not called; only the two checkbox events remain to change the
    selection. *)
Theorem selection_independent_of_sort
    (engine : Engine) (props : Props)
    (es : list Event) (w : World) :
  selection_allocated w ->
  forallb sort_event es = true ->
  let w' := run engine props es w in
  selectedRows (state w') = selectedRows (state w) /\
  selection w' = selection w /\
  (forall record : Row,
      isRowSelected props w' record = isRowSelected props w record) /\
  notified w' = notified w.
Proof.
  intros Hwf Hes w'.
  destruct (run_sort_events engine props es w Hes) as (Hs & Hn & Hf).
  destruct (Hf _ Hwf) as [_ Hl].
  assert (Hsel : selection w' = selection w).
  { unfold selection, contents. fold w' in Hs, Hl. by rewrite Hs, Hl. }
  repeat split; try done.
  intros record. unfold isRowSelected.
  fold (selection w') (selection w). by rewrite Hsel.
Qed.

(** The second sample user is selected, then the table is sorted by
    descending id: the selection is still that one user. *)
Lemma selection_independent_of_sort_witness :
  let w := step Sample.engine Sample.props (mount Sample.store)
             (RowCheckbox (Sample.user 2 "Jane Smith") true) in
  let w' := run Sample.engine Sample.props
              [HeaderClick Sample.idColumn; HeaderClick Sample.idColumn;
               Rerender] w in
  sortState (state w') = (Some "id", desc) /\
  selection w = [Sample.user 2 "Jane Smith"] /\
  selection w' = selection w.
Proof.
  intros w w'.
  assert (Hwf : selection_allocated w).
  { apply elem_of_dom. vm_compute. eexists. reflexivity. }
  destruct (selection_independent_of_sort Sample.engine Sample.props
              [HeaderClick Sample.idColumn; HeaderClick Sample.idColumn;
               Rerender] w Hwf eq_refl) as (_ & Hsel & _).
  split; [vm_compute; reflexivity|].
  split; [vm_compute; reflexivity|exact Hsel].
Defined.

End SortSelectionFacts.

(* ===================================================================== *)
(** ** The comparator on columns of one kind *)
(* ===================================================================== *)

Module ComparatorFacts.
Import JS DataTable Order ArrayFacts.

Lemma string_compare_refl (s : string) : String.compare s s = Eq.
Proof. by apply String_as_OT.cmp_eq. Qed.

Lemma string_compare_trans_le (s t u : string) :
  String.compare s t <> Gt -> String.compare t u <> Gt ->
  String.compare s u <> Gt.
Proof.
  intros Hst Htu.
  destruct (String.compare s t) eqn:Est; [| |done].
  - apply String_as_OT.cmp_eq in Est. by subst t.
  - destruct (String.compare t u) eqn:Etu; [| |done].
    + apply String_as_OT.cmp_eq in Etu. subst u. by rewrite Est.
    + apply String_as_OT.cmp_lt in Est, Etu.
      pose proof (String_as_OT.lt_trans _ _ _ Est Etu) as Hsu.
      apply String_as_OT.cmp_lt in Hsu. unfold String_as_OT.cmp in Hsu.
      by rewrite Hsu.
Qed.

Section Comparator.
Variable engine : Engine.
Variable column : string.
Variable d : SortDirection.

Abbreviation comparefn := (comparefn engine column d).

Lemma comparefn_numbers (a b : Row) (n m : Z) :
  get a column = VNum n -> get b column = VNum m ->
  comparefn a b
  = match d, n ?= m with
    | _, Eq => 0
    | asc, Lt => -1
    | asc, Gt => 1
    | _, Lt => 1
    | _, Gt => -1
    end.
Proof.
  intros Ha Hb. unfold DataTable.comparefn. rewrite Ha, Hb.
  unfold strict_eq. simpl. case_bool_decide as E.
  - injection E as ->. rewrite Z.compare_refl. by destruct d.
  - assert (n <> m) by congruence.
    destruct (Z.ltb_spec n m), (Z.compare_spec n m); destruct d; lia.
Qed.

Lemma comparefn_strings (a b : Row) (s t : string) :
  get a column = VStr s -> get b column = VStr t ->
  comparefn a b
  = match d, String.compare s t with
    | _, Eq => 0
    | asc, Lt => -1
    | asc, Gt => 1
    | _, Lt => 1
    | _, Gt => -1
    end.
Proof.
  intros Ha Hb. unfold DataTable.comparefn. rewrite Ha, Hb.
  unfold strict_eq, lt, String.ltb. case_bool_decide as E.
  - injection E as ->. rewrite string_compare_refl. by destruct d.
  - destruct (String.compare s t) eqn:Est; try by destruct d.
    apply String_as_OT.cmp_eq in Est. congruence.
Qed.

Abbreviation number_at := (number_at column).
Abbreviation string_at := (string_at column).

Lemma number_at_inv (r : Row) :
  number_at r -> exists n, get r column = VNum n.
Proof.
  unfold Order.number_at. destruct (get r column); try done. eauto.
Qed.

Lemma string_at_inv (r : Row) :
  string_at r -> exists s, get r column = VStr s.
Proof.
  unfold Order.string_at. destruct (get r column); try done. eauto.
Qed.

Lemma string_compare_lt_trans (s t u : string) :
  String.compare s t = Lt -> String.compare t u = Lt ->
  String.compare s u = Lt.
Proof.
  intros Est Etu. apply String_as_OT.cmp_lt in Est, Etu.
  by apply String_as_OT.cmp_lt, (String_as_OT.lt_trans _ _ _ Est Etu).
Qed.

Lemma string_compare_gt_trans (s t u : string) :
  String.compare s t = Gt -> String.compare t u = Gt ->
  String.compare s u = Gt.
Proof.
  intros Est Etu.
  rewrite String.compare_antisym in Est, Etu |- *.
  apply CompOpp_iff in Est, Etu. simpl in Est, Etu.
  by rewrite (string_compare_lt_trans u t s).
Qed.

Lemma string_compare_eq (s t : string) : String.compare s t = Eq -> s = t.
Proof. apply String_as_OT.cmp_eq. Qed.

(** On a column of numbers the comparator is consistent. *)
Lemma comparefn_numbers_consistent (rows : list Row) :
  Forall number_at rows -> consistent comparefn rows.
Proof.
  intros Hrows. rewrite Forall_forall in Hrows.
  repeat split.
  - intros a [n Ha]%Hrows%number_at_inv.
    rewrite (comparefn_numbers a a n n) by done.
    rewrite Z.compare_refl. by destruct d.
  - intros a b [n Ha]%Hrows%number_at_inv [m Hb]%Hrows%number_at_inv.
    rewrite (comparefn_numbers a b n m), (comparefn_numbers b a m n) by done.
    destruct (Z.compare_spec n m), (Z.compare_spec m n); destruct d; lia.
  - intros a b c [n Ha]%Hrows%number_at_inv [m Hb]%Hrows%number_at_inv
      [k Hc]%Hrows%number_at_inv.
    rewrite (comparefn_numbers a b n m), (comparefn_numbers b c m k),
      (comparefn_numbers a c n k) by done.
    destruct (Z.compare_spec n m), (Z.compare_spec m k),
      (Z.compare_spec n k); destruct d; lia.
  - intros a b c [n Ha]%Hrows%number_at_inv [m Hb]%Hrows%number_at_inv
      [k Hc]%Hrows%number_at_inv.
    rewrite (comparefn_numbers a b n m), (comparefn_numbers b c m k),
      (comparefn_numbers a c n k) by done.
    destruct (Z.compare_spec n m), (Z.compare_spec m k),
      (Z.compare_spec n k); destruct d; lia.
  - intros a b c [n Ha]%Hrows%number_at_inv [m Hb]%Hrows%number_at_inv
      [k Hc]%Hrows%number_at_inv.
    rewrite (comparefn_numbers a b n m), (comparefn_numbers b c m k),
      (comparefn_numbers a c n k) by done.
    destruct (Z.compare_spec n m), (Z.compare_spec m k),
      (Z.compare_spec n k); destruct d; lia.
Qed.

(** On a column of strings the comparator is consistent. *)
Lemma comparefn_strings_consistent (rows : list Row) :
  Forall string_at rows -> consistent comparefn rows.
Proof.
  intros Hrows. rewrite Forall_forall in Hrows.
  repeat split.
  - intros a [s Ha]%Hrows%string_at_inv.
    rewrite (comparefn_strings a a s s) by done.
    rewrite string_compare_refl. by destruct d.
  - intros a b [s Ha]%Hrows%string_at_inv [t Hb]%Hrows%string_at_inv.
    rewrite (comparefn_strings a b s t), (comparefn_strings b a t s) by done.
    rewrite (String.compare_antisym t s).
    destruct (String.compare s t); destruct d; simpl; lia.
  - intros a b c [s Ha]%Hrows%string_at_inv [t Hb]%Hrows%string_at_inv
      [u Hc]%Hrows%string_at_inv.
    rewrite (comparefn_strings a b s t), (comparefn_strings b c t u),
      (comparefn_strings a c s u) by done.
    destruct (String.compare s t) eqn:Est; [|destruct d; lia..].
    destruct (String.compare t u) eqn:Etu; [|destruct d; lia..].
    apply string_compare_eq in Est, Etu. subst t u.
    rewrite string_compare_refl. by destruct d.
  - intros a b c [s Ha]%Hrows%string_at_inv [t Hb]%Hrows%string_at_inv
      [u Hc]%Hrows%string_at_inv.
    rewrite (comparefn_strings a b s t), (comparefn_strings b c t u),
      (comparefn_strings a c s u) by done.
    destruct (String.compare s t) eqn:Est, (String.compare t u) eqn:Etu;
      try (destruct d; lia).
    + rewrite (string_compare_lt_trans s t u Est Etu). destruct d; lia.
    + rewrite (string_compare_gt_trans s t u Est Etu). destruct d; lia.
  - intros a b c [s Ha]%Hrows%string_at_inv [t Hb]%Hrows%string_at_inv
      [u Hc]%Hrows%string_at_inv.
    rewrite (comparefn_strings a b s t), (comparefn_strings b c t u),
      (comparefn_strings a c s u) by done.
    destruct (String.compare s t) eqn:Est, (String.compare t u) eqn:Etu;
      try (destruct d; lia).
    + rewrite (string_compare_lt_trans s t u Est Etu). destruct d; lia.
    + rewrite (string_compare_gt_trans s t u Est Etu). destruct d; lia.
Qed.

Lemma comparable_consistent (rows : list Row) :
  comparable_column column rows = true -> consistent comparefn rows.
Proof.
  unfold comparable_column. intros [H|H]%orb_prop.
  - apply comparefn_numbers_consistent, Forall_forall. intros r Hr.
    rewrite forallb_forall in H. apply H. by apply list_elem_of_In.
  - apply comparefn_strings_consistent, Forall_forall. intros r Hr.
    rewrite forallb_forall in H. apply H. by apply list_elem_of_In.
Qed.

End Comparator.

End ComparatorFacts.

(* ===================================================================== *)
(** ** The order of a sorted column of numbers, or of strings *)
(* ===================================================================== *)

Module ColumnOrderFacts.
Import JS DataTable Order ArrayFacts ComparatorFacts.






Section Sorted.
Variable engine : Engine.
Variable column : string.
Variable d : SortDirection.

Abbreviation sorted rows :=
  (array_sort engine Row (comparefn engine column d) rows).



End Sorted.

End ColumnOrderFacts.

(* ===================================================================== *)
(** ** An active sort works on a copy *)
(* ===================================================================== *)

Module SortedViewFacts.
Import JS DataTable Order ArrayFacts ViewFacts ComparatorFacts.
Import ColumnOrderFacts.





(** The scenario of two rows sorted by name: one click sorts them
    ascending, a second descending, and a third shows the input again. *)
Example name_column_scenario :
  let a : Row := {[ "id" := VNum 1; "name" := VStr "b" ]} in
  let b : Row := {[ "id" := VNum 2; "name" := VStr "a" ]} in
  let props := {| data := 1%positive; rowKey := default_rowKey;
                  onRowSelect := false |} in
  let view w := contents (heap (render Sample.engine props w).1)
                         (render Sample.engine props w).2 in
  let w0 := mount {[ 1%positive := [a; b] ]} in
  let w1 := step Sample.engine props w0
              (HeaderClick Sample.nameColumn) in
  let w2 := step Sample.engine props w1
              (HeaderClick Sample.nameColumn) in
  let w3 := step Sample.engine props w2
              (HeaderClick Sample.nameColumn) in
  view w0 = [a; b] /\ view w1 = [b; a] /\ view w2 = [a; b] /\
  view w3 = [a; b] /\ sortState (state w3) = (None, null).
Proof. vm_compute. repeat split; reflexivity. Qed.

End SortedViewFacts.

(* ===================================================================== *)
(** ** The button container of the input field *)
(* ===================================================================== *)

Module InputFieldFacts.
Import JS InputField.

(** C10.  The busy indicator is shown iff [loading]; the clear button
    iff [clearable], the value is not empty, and the field is neither
    disabled nor loading; the visibility toggle iff [passwordToggle]
    is set or the type is [password], and the field is neither
    disabled nor loading. *)
Theorem affordances (props : Props) (showPassword : bool) :
  (shows (loadingSpinner props) LoadingSpinner <-> loading props = true) /\
  (shows (clearButton props) ClearButton <->
     clearable props = true /\ value props <> "" /\
     disabled props = false /\ loading props = false) /\
  (shows (passwordToggleButton props showPassword)
         (PasswordToggle showPassword) <->
     (passwordToggle props = true \/ type props = password) /\
     disabled props = false /\ loading props = false).
Proof.
  unfold shows, loadingSpinner, clearButton, passwordToggleButton.
  destruct props as [v dis inv load ty clr tog]; simpl.
  split; [|split].
  - destruct load; simpl; split; intros H; done.
  - destruct clr; simpl; [|split; [done|by intros [? _]]].
    destruct v as [|c v]; simpl; [split; [done|by intros (_ & ? & _)]|].
    destruct dis; simpl; [split; [done|by intros (_ & _ & ? & _)]|].
    destruct load; simpl; [split; [done|by intros (_ & _ & _ & ?)]|].
    split; done.
  - case_bool_decide as Hty.
    + rewrite orb_true_r. simpl.
      destruct dis; simpl; [split; [done|by intros (_ & ? & _)]|].
      destruct load; simpl; [split; [done|by intros (_ & _ & ?)]|].
      split; [auto|done].
    + rewrite orb_false_r.
      destruct tog; simpl; [|split; [done|intros ([?|?] & _); done]].
      destruct dis; simpl; [split; [done|by intros (_ & ? & _)]|].
      destruct load; simpl; [split; [done|by intros (_ & _ & ?)]|].
      split; [auto|done].
Qed.

End InputFieldFacts.

(* ===================================================================== *)
(** ** Headers: clicks, keys, arrows and aria-sort *)
(* ===================================================================== *)

Module HeaderFacts.
Import JS DataTable TableMarkup SortStateFacts.

Lemma state_eq (s t : State) :
  selectedRows s = selectedRows t -> sortState s = sortState t -> s = t.
Proof.
  destruct s, t. unfold sortState. simpl. intros -> E. by injection E as -> ->.
Qed.

Lemma not_sortable_true (C : Column) :
  sortable C <> Some true -> not_sortable C = true.
Proof. unfold not_sortable. destruct (sortable C) as [[|]|]; congruence. Qed.

(** After a click on a sortable header the sort state is on that
    header's cycle. *)
Lemma handleSort_lands (C : Column) (s : State) :
  sortable C = Some true ->
  sortState (handleSort C s) = (Some (key C), asc) \/
  sortState (handleSort C s) = (Some (key C), desc) \/
  sortState (handleSort C s) = (None, null).
Proof.
  intros HC. destruct (decide (sortColumn s = Some (key C))) as [E|E].
  - rewrite (handleSort_same C s HC E). destruct (sortDirection s); auto.
  - left. by apply handleSort_other.
Qed.

(** On that cycle, three clicks come back to where they started. *)
Lemma handleSort_cycle (C : Column) (s : State) :
  sortable C = Some true ->
  sortState s = (Some (key C), asc) \/
  sortState s = (Some (key C), desc) \/
  sortState s = (None, null) ->
  sortState (handleSort C (handleSort C (handleSort C s))) = sortState s.
Proof.
  intros HC Hs.
  assert (Hnone : forall t, sortState t = (None, null) ->
            sortState (handleSort C t) = (Some (key C), asc)).
  { intros t Ht. destruct (sortState_inv _ _ _ Ht) as [Hc _].
    apply handleSort_other; [done|]. by rewrite Hc. }
  assert (Hasc : forall t, sortState t = (Some (key C), asc) ->
            sortState (handleSort C t) = (Some (key C), desc)).
  { intros t Ht. destruct (sortState_inv _ _ _ Ht) as [Hc Hd].
    rewrite (handleSort_same C t HC Hc). by rewrite Hd. }
  assert (Hdesc : forall t, sortState t = (Some (key C), desc) ->
            sortState (handleSort C t) = (None, null)).
  { intros t Ht. destruct (sortState_inv _ _ _ Ht) as [Hc Hd].
    rewrite (handleSort_same C t HC Hc). by rewrite Hd. }
  destruct Hs as [Hs|[Hs|Hs]]; rewrite Hs.
  - apply Hnone, Hdesc, Hasc, Hs.
  - apply Hasc, Hnone, Hdesc, Hs.
  - apply Hdesc, Hasc, Hnone, Hs.
Qed.

Lemma handleSort_consistent (C : Column) (s : State) :
  sort_consistent s -> sort_consistent (handleSort C s).
Proof.
  unfold sort_consistent, handleSort. intros Hs.
  destruct (not_sortable C); [done|].
  destruct (is_sort_column s C) eqn:Ec.
  - apply bool_decide_eq_true in Ec.
    destruct s as [sel c []]; simpl in *; subst c; split; intros E;
      try discriminate E; done.
  - simpl. split; intros E; discriminate E.
Qed.

(** X1.  A column that is not sortable is inert: a click does not
    change the state, no key does, [preventDefault] is not called, and
    the header has no arrow. *)
Theorem non_sortable_header_inert (C : Column) (s : State) (k : string) :
  sortable C <> Some true ->
  handleSort C s = s /\
  onKeyDown C k s = (s, false) /\
  sortArrow s C = None.
Proof.
  intros HC. pose proof (not_sortable_true C HC) as Hn.
  unfold handleSort, onKeyDown, sortArrow. by rewrite Hn.
Qed.

Lemma non_sortable_header_inert_witness :
  let C := {| key := "email"; title := "Email"; sortable := None |} in
  let s := {| selectedRows := 1%positive;
              sortColumn := Some "email"; sortDirection := asc |} in
  handleSort C s = s /\ onKeyDown C "Enter" s = (s, false).
Proof.
  intros C s.
  assert (HC : sortable C <> Some true) by discriminate.
  destruct (non_sortable_header_inert C s "Enter" HC) as (H1 & H2 & _).
  split; [exact H1|exact H2].
Defined.

(** X2.  From the first click on, activating a sortable header has
    period three: four clicks leave the state where one click does. *)
Theorem handleSort_period_three (C : Column) (s : State) :
  sortable C = Some true ->
  handleSort C (handleSort C (handleSort C (handleSort C s)))
  = handleSort C s.
Proof.
  intros HC. apply state_eq.
  - by rewrite !handleSort_selectedRows.
  - apply handleSort_cycle; [done|]. by apply handleSort_lands.
Qed.

Lemma handleSort_period_three_witness :
  let s := {| selectedRows := 1%positive;
              sortColumn := Some "id"; sortDirection := desc |} in
  handleSort Sample.nameColumn
    (handleSort Sample.nameColumn
       (handleSort Sample.nameColumn (handleSort Sample.nameColumn s)))
  = {| selectedRows := 1%positive;
       sortColumn := Some "name"; sortDirection := asc |}.
Proof.
  intros s.
  rewrite (handleSort_period_three Sample.nameColumn s eq_refl).
  reflexivity.
Defined.

(** X3.  Enter and Space on a header do what a click does; any other
    key leaves the state alone; [preventDefault] is called exactly for
    Enter and Space on a sortable header. *)
Theorem keyboard_activation (C : Column) (k : string) (s : State) :
  (k = "Enter" \/ k = " " -> (onKeyDown C k s).1 = handleSort C s) /\
  (k <> "Enter" -> k <> " " -> onKeyDown C k s = (s, false)) /\
  ((onKeyDown C k s).2 = true <->
     sortable C = Some true /\ (k = "Enter" \/ k = " ")).
Proof.
  unfold onKeyDown.
  assert (Hk : String.eqb k "Enter" || String.eqb k " " = true <->
               k = "Enter" \/ k = " ").
  { rewrite orb_true_iff, !String.eqb_eq. done. }
  destruct (String.eqb k "Enter" || String.eqb k " ") eqn:Ek.
  - destruct (not_sortable C) eqn:En; simpl.
    + split; [intros _; unfold handleSort; by rewrite En|].
      split; [intros H1 H2; destruct (proj1 Hk eq_refl); done|].
      split; [done|]. intros [HC _].
      rewrite (not_sortable_false C HC) in En. discriminate En.
    + split; [done|].
      split; [intros H1 H2; destruct (proj1 Hk eq_refl); done|].
      split; [intros _|done]. split; [|by apply Hk].
      unfold not_sortable in En. by destruct (sortable C) as [[|]|].
  - rewrite andb_false_r. simpl.
    split; [intros H; apply Hk in H; discriminate H|].
    split; [done|]. split; [done|].
    intros [_ H]. apply Hk in H. discriminate H.
Qed.

(** X4.  When column and direction are both set or both none,
    [aria-sort] and the arrow of a sortable header say the same. *)
Theorem aria_sort_matches_arrow (C : Column) (s : State) :
  sortable C = Some true ->
  sort_consistent s ->
  (ariaSort s C = ascending <-> sortArrow s C = Some up) /\
  (ariaSort s C = descending <-> sortArrow s C = Some down) /\
  (ariaSort s C = none <-> sortArrow s C = Some both).
Proof.
  intros HC Hs. unfold ariaSort, sortArrow.
  rewrite (not_sortable_false C HC).
  destruct (is_sort_column s C) eqn:Ec.
  - assert (Hd : sortDirection s <> null).
    { intros E. apply Hs in E. unfold is_sort_column in Ec.
      apply bool_decide_eq_true in Ec. congruence. }
    destruct (sortDirection s); try done; repeat split; intros E;
      discriminate E.
  - repeat split; intros E; done.
Qed.

Lemma aria_sort_matches_arrow_witness :
  let s := {| selectedRows := 1%positive;
              sortColumn := Some "name"; sortDirection := desc |} in
  ariaSort s Sample.nameColumn = descending /\
  sortArrow s Sample.nameColumn = Some down.
Proof.
  intros s.
  assert (Hs : sort_consistent s).
  { split; intros E; discriminate E. }
  destruct (aria_sort_matches_arrow Sample.nameColumn s eq_refl Hs)
    as (_ & Hd & _).
  split; [reflexivity|]. apply Hd. reflexivity.
Defined.

End HeaderFacts.

(* ===================================================================== *)
(** ** What events do to the store, the state and the callback *)
(* ===================================================================== *)

Module EventFacts.
Import JS DataTable TableMarkup ArrayFacts SortStateFacts ViewFacts.
Import SelectionFacts SortSelectionFacts HeaderFacts.

Lemma sort_contents {A : Type} (engine : Engine) (h : gmap ref (list A))
    (a : ref) (comparefn : A -> A -> Z) :
  contents (sort engine h a comparefn).1 (sort engine h a comparefn).2
  = array_sort engine A comparefn (contents h a).
Proof. unfold contents at 1. by rewrite sort_lookup_same. Qed.

Section Events.
Variable engine : Engine.
Variable props : Props.

Abbreviation render := (render engine props).
Abbreviation step := (step engine props).
Abbreviation run := (run engine props).
Abbreviation viewRows := (viewRows engine props).

Lemma render_view (w : World) :
  (render w).2
  = (sortedData engine props (heap w)
       (sortColumn (state w)) (sortDirection (state w))).2.
Proof.
  unfold DataTable.render.
  by destruct (sortedData engine props (heap w) _ _).
Qed.

Lemma render_frame (w : World) (a : ref) :
  a ∈ dom (heap w) ->
  a ∈ dom (heap (render w).1) /\ heap (render w).1 !! a = heap w !! a.
Proof.
  intros Ha. rewrite render_heap.
  split; [by apply sortedData_dom|by apply sortedData_frame].
Qed.

Lemma handleRowSelect_frame (record : Row) (checked : bool) (w : World)
    (a : ref) :
  a ∈ dom (heap w) ->
  a ∈ dom (heap (handleRowSelect props record checked w)) /\
  heap (handleRowSelect props record checked w) !! a = heap w !! a.
Proof.
  intros Ha. unfold handleRowSelect. destruct checked; simpl.
  all: split; [rewrite dom_insert_L; set_solver|].
  all: apply lookup_insert_ne; intros E; apply (is_fresh (dom (heap w)));
    by rewrite E.
Qed.

Lemma handleSelectAll_frame (view : ref) (checked : bool) (w : World)
    (a : ref) :
  a ∈ dom (heap w) ->
  a ∈ dom (heap (handleSelectAll props view checked w)) /\
  heap (handleSelectAll props view checked w) !! a = heap w !! a.
Proof.
  intros Ha. unfold handleSelectAll. destruct checked; simpl.
  all: split; [rewrite dom_insert_L; set_solver|].
  all: apply lookup_insert_ne; intros E; apply (is_fresh (dom (heap w)));
    by rewrite E.
Qed.

(** No event writes to an array that exists. *)
Lemma step_frame (w : World) (e : Event) (a : ref) :
  a ∈ dom (heap w) ->
  a ∈ dom (heap (step w e)) /\ heap (step w e) !! a = heap w !! a.
Proof.
  intros Ha. destruct (render_frame w a Ha) as [Hd Hl].
  unfold DataTable.step. destruct (render w) as [w1 view]. simpl in Hd, Hl.
  destruct e as [column|record checked|checked|]; simpl; try done.
  - destruct (handleRowSelect_frame record checked w1 a Hd) as [Hd' Hl'].
    split; [done|by rewrite Hl'].
  - destruct (handleSelectAll_frame view checked w1 a Hd) as [Hd' Hl'].
    split; [done|by rewrite Hl'].
Qed.

Lemma step_state_sort (w : World) (e : Event) :
  sortState (state (step w e))
  = match e with
    | HeaderClick column => sortState (handleSort column (state w))
    | _ => sortState (state w)
    end.
Proof.
  pose proof (render_state engine props w) as Hs.
  unfold DataTable.step. destruct (render w) as [w1 view]. simpl in Hs.
  destruct e as [column|record checked|checked|]; simpl; rewrite ?Hs; try done.
  - unfold handleRowSelect, sortState. destruct checked; simpl; by rewrite Hs.
  - unfold handleSelectAll, sortState. destruct checked; simpl; by rewrite Hs.
Qed.

Lemma sort_consistent_sortState (s t : State) :
  sortState s = sortState t -> sort_consistent t -> sort_consistent s.
Proof.
  unfold sortState, sort_consistent. intros E. by injection E as -> ->.
Qed.

Lemma step_consistent (w : World) (e : Event) :
  sort_consistent (state w) -> sort_consistent (state (step w e)).
Proof.
  intros Hw. pose proof (step_state_sort w e) as Hs.
  destruct e as [column| | |];
    apply (sort_consistent_sortState _ _ Hs); try done.
  by apply handleSort_consistent.
Qed.

(** The rows of the view are those of [data], rearranged. *)
Lemma viewRows_perm (w : World) :
  Permutation (viewRows w) (contents (heap w) (data props)).
Proof.
  unfold TableMarkup.viewRows. rewrite render_heap, render_view.
  destruct (sortColumn (state w)) as [column|];
    [|by rewrite sortedData_inactive by auto].
  destruct (decide (sortDirection (state w) = null)) as [Hd|Hd];
    [by rewrite sortedData_inactive by auto|].
  destruct (decide (column = "")) as [->|Hc].
  - unfold sortedData. by destruct (sortDirection (state w)).
  - rewrite sortedData_active by done.
    rewrite sort_contents, alloc_contents_new.
    symmetry. apply array_sort_permutation.
Qed.

End Events.

(** X5.  In every state reached from the first render, the sort column
    and the sort direction are both set or both none. *)
Theorem reachable_sort_consistent
    (engine : Engine) (props : Props)
    (es : list Event) (h : Heap) :
  sort_consistent (state (run engine props es (mount h))).
Proof.
  assert (H0 : sort_consistent (state (mount h))) by done.
  revert H0. generalize (mount h).
  induction es as [|e es IH]; intros w Hw; [done|].
  apply IH. by apply step_consistent.
Qed.

(** X6.  No event changes an array that exists: neither [data] nor an
    array handed to [onRowSelect] earlier is ever written to. *)
Theorem arrays_never_mutated
    (engine : Engine) (props : Props)
    (es : list Event) (w : World) (a : ref) :
  a ∈ dom (heap w) ->
  heap (run engine props es w) !! a = heap w !! a.
Proof.
  revert w. induction es as [|e es IH]; intros w Ha; [done|].
  destruct (step_frame engine props w e a Ha) as [Hd Hl].
  unfold run in *. simpl. rewrite (IH _ Hd). exact Hl.
Qed.

Lemma arrays_never_mutated_witness :
  heap (run Sample.engine Sample.props
          [RowCheckbox (Sample.user 2 "Jane Smith") true;
           HeaderClick Sample.nameColumn; SelectAllCheckbox true;
           HeaderClick Sample.nameColumn; Rerender]
          (mount Sample.store)) !! data Sample.props
  = Some Sample.sampleUsers.
Proof.
  rewrite arrays_never_mutated.
  - reflexivity.
  - apply elem_of_dom. eexists. vm_compute. reflexivity.
Defined.

(** X7.  A checkbox event calls [onRowSelect], when the prop is given,
    exactly once and with the array that becomes the selection. *)
Theorem checkbox_event_notifies
    (engine : Engine) (props : Props)
    (w : World) (e : Event) :
  sort_event e = false ->
  let w' := step engine props w e in
  notified w'
  = if onRowSelect props
    then (notified w ++ [selectedRows (state w')])%list
    else notified w.
Proof.
  intros He w'. unfold w', step.
  pose proof (render_notified engine props w) as Hn.
  destruct (DataTable.render engine props w) as [w1 view].
  simpl in Hn.
  destruct e as [column|record checked|checked|]; try discriminate He.
  - unfold handleRowSelect, call_onRowSelect.
    destruct checked; simpl; by rewrite Hn.
  - unfold handleSelectAll, call_onRowSelect.
    destruct checked; simpl; by rewrite Hn.
Qed.

Lemma checkbox_event_notifies_witness :
  let w := mount Sample.store in
  let w' := step Sample.engine Sample.props w
              (SelectAllCheckbox true) in
  notified w' = [selectedRows (state w')].
Proof.
  intros w w'.
  exact (checkbox_event_notifies Sample.engine Sample.props w
           (SelectAllCheckbox true) eq_refl).
Defined.

End EventFacts.

(* ===================================================================== *)
(** ** Checking and unchecking rows *)
(* ===================================================================== *)

Module CheckboxFacts.
Import JS DataTable TableMarkup ArrayFacts SortStateFacts ViewFacts.
Import SelectionFacts SortSelectionFacts HeaderFacts EventFacts.

Section Checkbox.
Variable props : Props.

Abbreviation same_key :=
  (fun a b : Row => strict_eq (getRowKey props a 0) (getRowKey props b 0)).

Lemma isRowSelected_selection (w : World) (record : Row) :
  isRowSelected props w record
  = existsb (fun row => same_key row record) (selection w).
Proof. reflexivity. Qed.

Lemma existsb_filter_other_key (record r : Row) (rows : list Row) :
  existsb (fun row => same_key row r)
    (List.filter (fun row => negb (same_key row record)) rows)
  = existsb (fun row => same_key row r) rows && negb (same_key r record).
Proof.
  induction rows as [|x rows IH]; simpl; [done|].
  destruct (same_key x record) eqn:Exr; simpl.
  - rewrite IH. destruct (same_key x r) eqn:Exx; simpl; [|done].
    apply strict_eq_true in Exr as [Exr Hrec], Exx as [Exx Hr].
    assert (Hrr : same_key r record = true).
    { apply strict_eq_true. split; [congruence|done]. }
    simpl in Hrr. rewrite Hrr. simpl. apply andb_false_r.
  - rewrite IH. destruct (same_key x r) eqn:Exx; simpl; [|done].
    apply strict_eq_true in Exx as [Exx Hr].
    assert (Hrr : same_key r record = false).
    { simpl. rewrite <- Exx. exact Exr. }
    simpl in Hrr. by rewrite Hrr.
Qed.

Lemma filter_none_selected (record : Row) (rows : list Row) :
  existsb (fun row => same_key row record) rows = false ->
  List.filter (fun row => negb (same_key row record)) rows = rows.
Proof.
  induction rows as [|x rows IH]; simpl; [done|].
  intros [Hx Hrows]%orb_false_elim. rewrite Hx. simpl. by rewrite IH.
Qed.

End Checkbox.

(** X8.  After a row is checked, a record counts as selected exactly
    when it did before or resolves to the key of the checked row. *)
Theorem isRowSelected_after_check (props : Props) (record r : Row)
    (w : World) :
  isRowSelected props (handleRowSelect props record true w) r
  = isRowSelected props w r
    || strict_eq (getRowKey props record 0) (getRowKey props r 0).
Proof.
  rewrite !isRowSelected_selection, selection_handleRowSelect_checked.
  rewrite existsb_app. simpl. by rewrite orb_false_r.
Qed.

(** X9.  After a row is unchecked, a record counts as selected exactly
    when it did before and resolves to another key than the unchecked
    row; so the row itself, and every row sharing its key, is off. *)
Theorem isRowSelected_after_uncheck (props : Props) (record r : Row)
    (w : World) :
  isRowSelected props (handleRowSelect props record false w) r
  = isRowSelected props w r
    && negb (strict_eq (getRowKey props r 0) (getRowKey props record 0)).
Proof.
  rewrite !isRowSelected_selection, selection_handleRowSelect_unchecked.
  apply existsb_filter_other_key.
Qed.

(** X10.  Unchecking a row that does not count as selected leaves the
    selected rows as they are. *)
Theorem uncheck_unselected (props : Props) (record : Row) (w : World) :
  isRowSelected props w record = false ->
  selection (handleRowSelect props record false w) = selection w.
Proof.
  intros Hno. rewrite selection_handleRowSelect_unchecked.
  by apply filter_none_selected.
Qed.

Lemma uncheck_unselected_witness :
  let w := handleRowSelect Sample.props (Sample.user 2 "Jane Smith") true
             (mount Sample.store) in
  selection (handleRowSelect Sample.props (Sample.user 3 "Bob Johnson")
               false w)
  = [Sample.user 2 "Jane Smith"].
Proof.
  intros w.
  rewrite (uncheck_unselected Sample.props (Sample.user 3 "Bob Johnson") w)
    by (vm_compute; reflexivity).
  vm_compute. reflexivity.
Defined.

(** X11.  Checking a row whose key is not [NaN] and that does not
    count as selected, and then unchecking it, gives back the selected
    rows there were. *)
Theorem check_then_uncheck (props : Props) (record : Row) (w : World) :
  getRowKey props record 0 <> VNaN ->
  isRowSelected props w record = false ->
  selection
    (handleRowSelect props record false
       (handleRowSelect props record true w))
  = selection w.
Proof.
  intros Hkey Hno.
  rewrite selection_handleRowSelect_unchecked,
    selection_handleRowSelect_checked.
  rewrite List.filter_app. simpl. rewrite strict_eq_refl by done. simpl.
  rewrite app_nil_r. by apply filter_none_selected.
Qed.

Lemma check_then_uncheck_witness :
  let w := handleRowSelect Sample.props (Sample.user 2 "Jane Smith") true
             (mount Sample.store) in
  selection
    (handleRowSelect Sample.props (Sample.user 1 "John Doe") false
       (handleRowSelect Sample.props (Sample.user 1 "John Doe") true w))
  = [Sample.user 2 "Jane Smith"].
Proof.
  intros w.
  assert (Hkey : getRowKey Sample.props (Sample.user 1 "John Doe") 0
                 <> VNaN) by discriminate.
  rewrite (check_then_uncheck Sample.props (Sample.user 1 "John Doe") w Hkey)
    by (vm_compute; reflexivity).
  vm_compute. reflexivity.
Defined.

End CheckboxFacts.

(* ===================================================================== *)
(** ** The view, the screen and the header checkbox *)
(* ===================================================================== *)

Module ScreenFacts.
Import JS DataTable TableMarkup ArrayFacts SortStateFacts ViewFacts.
Import SelectionFacts SortSelectionFacts HeaderFacts EventFacts.

Section Screen.
Variable engine : Engine.
Variable props : Props.

Abbreviation render := (render engine props).
Abbreviation step := (step engine props).
Abbreviation viewRows := (viewRows engine props).
Abbreviation headerCheckbox := (headerCheckbox engine props).

Lemma selection_after_select_all (w : World) :
  selection (step w (SelectAllCheckbox true)) = viewRows w.
Proof.
  unfold DataTable.step, TableMarkup.viewRows.
  destruct (render w) as [w1 view]. simpl.
  unfold selection, handleSelectAll. simpl. apply alloc_contents_new.
Qed.

Lemma selection_after_select_none (w : World) :
  selection (step w (SelectAllCheckbox false)) = [].
Proof.
  unfold DataTable.step. destruct (render w) as [w1 view]. simpl.
  unfold selection, handleSelectAll. simpl. apply alloc_contents_new.
Qed.

Lemma select_all_allocated (checked : bool) (w : World) :
  selection_allocated (step w (SelectAllCheckbox checked)).
Proof.
  unfold DataTable.step. destruct (render w) as [w1 view].
  apply handleSelectAll_allocated.
Qed.

(** The two flags of the header checkbox, by the lengths of the view
    and of the selection. *)
Lemma headerCheckbox_lengths (w : World) :
  selection_allocated w ->
  headerCheckbox w
  = ((0 <? length (viewRows w))%nat
     && (length (selection w) =? length (viewRows w))%nat,
     (0 <? length (selection w))%nat
     && (length (selection w) <? length (viewRows w))%nat).
Proof.
  intros Hw. unfold TableMarkup.headerCheckbox, isAllSelected, isIndeterminate.
  unfold TableMarkup.viewRows, selection. simpl.
  rewrite (render_state engine props w).
  destruct (render_frame engine props w _ Hw) as [_ Hl].
  unfold contents. by rewrite Hl.
Qed.

End Screen.

(** X12.  Whatever the sort state, the view holds the rows of [data]
    rearranged: as many rows, and the same ones. *)
Theorem view_rearranges_data
    (engine : Engine) (props : Props) (w : World) :
  Permutation (viewRows engine props w)
              (contents (heap w) (data props)) /\
  length (viewRows engine props w)
  = length (contents (heap w) (data props)) /\
  (forall r : Row,
      r ∈ viewRows engine props w <->
      r ∈ contents (heap w) (data props)).
Proof.
  pose proof (viewRows_perm engine props w) as Hp.
  split; [done|]. split; [by apply Permutation_length|].
  intros r. by rewrite Hp.
Qed.

(** X13.  While loading the component returns the skeleton; otherwise
    it returns the placeholder exactly when [data] is empty, whatever
    the sort state, and the table of the view when it is not. *)
Theorem screen_by_data
    (engine : Engine) (props : Props)
    (emptyText : string) (w : World) :
  let rows := viewRows engine props w in
  screen true emptyText rows = Skeleton /\
  (screen false emptyText rows = EmptyState emptyText <->
     contents (heap w) (data props) = []) /\
  (contents (heap w) (data props) <> [] ->
     screen false emptyText rows = Table rows).
Proof.
  intros rows. pose proof (viewRows_perm engine props w) as Hp.
  fold rows in Hp. unfold screen. split; [done|].
  destruct rows as [|r rows'] eqn:Er; simpl.
  - apply Permutation_nil in Hp. rewrite Hp. by split.
  - assert (Hne : contents (heap w) (data props) <> []).
    { intros E. rewrite E in Hp. symmetry in Hp.
      by apply Permutation_nil in Hp. }
    split; [split; [done|by intros E]|done].
Qed.

(** X14.  After the select-all box is checked, the selection holds the
    rows of [data] rearranged, every one of them whose key is not
    [NaN] counts as selected, and at the next render the header
    checkbox is checked (unless there are no rows) and not
    indeterminate. *)
Theorem select_all_selects_every_row
    (engine : Engine) (props : Props) (w : World) :
  data props ∈ dom (heap w) ->
  let w' := step engine props w (SelectAllCheckbox true) in
  Permutation (selection w') (contents (heap w) (data props)) /\
  (forall r : Row,
      r ∈ contents (heap w) (data props) ->
      getRowKey props r 0 <> VNaN ->
      isRowSelected props w' r = true) /\
  headerCheckbox engine props w'
  = (negb (length (contents (heap w) (data props)) =? 0)%nat, false).
Proof.
  intros Hdata w'.
  pose proof (viewRows_perm engine props w) as Hp.
  pose proof (selection_after_select_all engine props w) as Hsel.
  fold w' in Hsel.
  split; [by rewrite Hsel|]. split.
  - intros r Hr Hkey. apply isRowSelected_spec. exists r.
    split; [by rewrite Hsel, Hp|done].
  - rewrite headerCheckbox_lengths by apply select_all_allocated.
    fold w'. rewrite Hsel.
    pose proof (viewRows_perm engine props w') as Hp'.
    destruct (step_frame engine props w (SelectAllCheckbox true)
                _ Hdata) as [_ Hl].
    fold w' in Hl.
    assert (Hd : contents (heap w') (data props)
                 = contents (heap w) (data props)).
    { unfold contents. by rewrite Hl. }
    rewrite Hd in Hp'.
    rewrite (Permutation_length Hp'), (Permutation_length Hp).
    destruct (length (contents (heap w) (data props))) as [|n]; simpl;
      [done|].
    by rewrite Nat.eqb_refl, Nat.ltb_irrefl.
Qed.

Lemma select_all_selects_every_row_witness :
  let w := step Sample.engine Sample.props (mount Sample.store)
             (HeaderClick Sample.nameColumn) in
  let w' := step Sample.engine Sample.props w
              (SelectAllCheckbox true) in
  selection w' = [Sample.user 3 "Bob Johnson"; Sample.user 2 "Jane Smith";
                  Sample.user 1 "John Doe"] /\
  headerCheckbox Sample.engine Sample.props w' = (true, false).
Proof.
  intros w w'.
  assert (Hdata : data Sample.props ∈ dom (heap w)).
  { apply elem_of_dom. eexists. vm_compute. reflexivity. }
  destruct (select_all_selects_every_row Sample.engine Sample.props
              w Hdata) as (_ & _ & Hbox).
  split; [vm_compute; reflexivity|].
  fold w' in Hbox. rewrite Hbox. vm_compute. reflexivity.
Defined.

(** X15.  After the select-all box is unchecked nothing is selected:
    the selection is empty, no record counts as selected, and at the
    next render the header checkbox is neither checked nor
    indeterminate. *)
Theorem select_none_clears
    (engine : Engine) (props : Props) (w : World) :
  let w' := step engine props w (SelectAllCheckbox false) in
  selection w' = [] /\
  (forall r : Row, isRowSelected props w' r = false) /\
  headerCheckbox engine props w' = (false, false).
Proof.
  intros w'.
  pose proof (selection_after_select_none engine props w) as Hsel.
  fold w' in Hsel.
  split; [done|]. split.
  - intros r. unfold isRowSelected. fold (selection w'). by rewrite Hsel.
  - rewrite headerCheckbox_lengths by apply select_all_allocated.
    fold w'. rewrite Hsel. simpl.
    by destruct (length (viewRows engine props w')).
Qed.

(** X16.  The header checkbox is never both checked and
    indeterminate. *)
Theorem header_checkbox_exclusive
    (engine : Engine) (props : Props) (w : World) :
  headerCheckbox engine props w <> (true, true).
Proof.
  unfold headerCheckbox, isAllSelected, isIndeterminate. intros E.
  injection E as Hall Hind.
  apply andb_prop in Hall as [_ Hk]. apply andb_prop in Hind as [_ Hlt].
  apply Nat.eqb_eq in Hk. apply Nat.ltb_lt in Hlt. lia.
Qed.

End ScreenFacts.

(* ===================================================================== *)
(** ** The order of the view *)
(* ===================================================================== *)

Module ViewOrderFacts.
Import JS DataTable Order TableMarkup ArrayFacts SortStateFacts ViewFacts.
Import SelectionFacts SortSelectionFacts ComparatorFacts ColumnOrderFacts.
Import EventFacts.

Section ViewOrder.
Variable engine : Engine.
Variable props : Props.

Abbreviation viewRows := (viewRows engine props).

(** With an active sort the view is the sorted copy of [data]. *)
Lemma viewRows_active (w : World) (column : string) :
  sortColumn (state w) = Some column -> column <> "" ->
  sortDirection (state w) <> null ->
  viewRows w
  = array_sort engine Row
      (comparefn engine column (sortDirection (state w)))
      (contents (heap w) (data props)).
Proof.
  intros Hc Hne Hd. unfold TableMarkup.viewRows.
  rewrite render_heap, render_view, Hc.
  rewrite sortedData_active by done.
  by rewrite sort_contents, alloc_contents_new.
Qed.


(** The comparator returns 0 exactly for two values that are [===]. *)
Lemma comparefn_zero (column : string) (d : SortDirection) (a b : Row) :
  (comparefn engine column d a b =? 0)
  = strict_eq (get a column) (get b column).
Proof.
  unfold comparefn.
  destruct (strict_eq (get a column) (get b column)); [done|].
  by destruct (lt (StringToNumber engine) (get a column) (get b column)), d.
Qed.

End ViewOrder.

Lemma filter_all_false {A : Type} (p : A -> bool) (l : list A) :
  (forall x, x ∈ l -> p x = false) -> List.filter p l = [].
Proof.
  induction l as [|x l IH]; intros Hl; simpl; [done|].
  rewrite (Hl x) by left. apply IH. intros y Hy. apply Hl. by right.
Qed.



(** X18.  On a column of numbers other than [NaN], or of strings, rows
    with the same value in the sort column stay in the order they have
    in [data]. *)
Theorem ties_keep_data_order
    (engine : Engine) (props : Props) (w : World)
    (column : string) (v : Value) :
  sortColumn (state w) = Some column ->
  column <> "" ->
  sortDirection (state w) <> null ->
  comparable_column column (contents (heap w) (data props)) = true ->
  List.filter (fun r => strict_eq (get r column) v)
    (viewRows engine props w)
  = List.filter (fun r => strict_eq (get r column) v)
      (contents (heap w) (data props)).
Proof.
  intros Hc Hne Hd Hcmp.
  rewrite (viewRows_active engine props w column) by done.
  set (rows := contents (heap w) (data props)) in *.
  set (cmp := comparefn engine column (sortDirection (state w))).
  pose proof (comparable_consistent engine column
                (sortDirection (state w)) rows Hcmp) as Hcons.
  fold cmp in Hcons.
  destruct (existsb (fun r => strict_eq (get r column) v) rows) eqn:Ex.
  - apply existsb_exists in Ex as (a & Ha & Hav).
    apply list_elem_of_In in Ha.
    apply strict_eq_true in Hav as [Hav Hv].
    assert (Hp : forall x : Row,
               strict_eq (get x column) v = (cmp a x =? 0)).
    { intros x. unfold cmp. rewrite comparefn_zero, Hav.
      apply strict_eq_sym. }
    rewrite (List.filter_ext _ _ Hp (array_sort engine Row cmp rows)).
    rewrite (List.filter_ext _ _ Hp rows).
    by apply array_sort_stable.
  - assert (Hnone : forall x, x ∈ rows -> strict_eq (get x column) v = false).
    { intros x Hx. destruct (strict_eq (get x column) v) eqn:E; [|done].
      assert (Hex : existsb (fun r => strict_eq (get r column) v) rows
                    = true).
      { apply existsb_exists. exists x. by rewrite <- list_elem_of_In. }
      congruence. }
    rewrite (filter_all_false _ rows Hnone).
    apply filter_all_false. intros x Hx. apply Hnone.
    by rewrite (array_sort_permutation engine Row cmp rows).
Qed.

Lemma ties_keep_data_order_witness :
  let a : Row := {[ "id" := VNum 1; "role" := VStr "User" ]} in
  let b : Row := {[ "id" := VNum 2; "role" := VStr "Admin" ]} in
  let c : Row := {[ "id" := VNum 3; "role" := VStr "User" ]} in
  let roleColumn := {| key := "role"; title := "Role";
                       sortable := Some true |} in
  let w := step Sample.engine Sample.props
             (mount {[ 1%positive := [a; b; c] ]}) (HeaderClick roleColumn) in
  viewRows Sample.engine Sample.props w = [b; a; c] /\
  List.filter (fun r => strict_eq (get r "role") (VStr "User"))
    (viewRows Sample.engine Sample.props w)
  = [a; c].
Proof.
  intros a b c roleColumn w.
  assert (Hne : "role" <> "") by discriminate.
  assert (Hd : sortDirection (state w) <> null) by discriminate.
  split; [vm_compute; reflexivity|].
  rewrite (ties_keep_data_order Sample.engine Sample.props w "role"
             (VStr "User") eq_refl Hne Hd eq_refl).
  vm_compute. reflexivity.
Defined.

End ViewOrderFacts.

(* ===================================================================== *)
(** ** Row keys and cells of the rendered table *)
(* ===================================================================== *)

Module RowMarkupFacts.
Import JS DataTable TableMarkup ArrayFacts SelectionFacts EventFacts.

Lemma rowKeys_truthy (props : Props) (field : string) (rows : list Row) :
  rowKey props = KeyField field ->
  (forall r, r ∈ rows -> truthy (get r field) = true) ->
  rowKeys props rows = map (fun r => get r field) rows.
Proof.
  intros Hk Hrows. unfold rowKeys.
  assert (E : forall (g : nat -> nat),
             imap (fun index record => getRowKey props record (g index)) rows
             = map (fun r => get r field) rows).
  { induction rows as [|r rows IH]; intros g; simpl; [done|].
    rewrite (getRowKey_field props field) by done.
    unfold or_else at 1. rewrite Hrows by left. f_equal.
    apply (IH (fun r' Hr' => Hrows r' (list_elem_of_further _ _ _ Hr'))
              (g ∘ S)). }
  apply (E id).
Qed.

Lemma rowKeys_falsy_from (props : Props) (field : string) (rows : list Row)
    (k : nat) :
  rowKey props = KeyField field ->
  (forall r, r ∈ rows -> truthy (get r field) = false) ->
  imap (fun index record => getRowKey props record (k + index)) rows
  = map (fun i => VNum (Z.of_nat i)) (seq k (length rows)).
Proof.
  intros Hk. revert k. induction rows as [|r rows IH]; intros k Hrows;
    simpl; [done|].
  rewrite (getRowKey_falsy props field) by (try done; apply Hrows; left).
  rewrite Nat.add_0_r. f_equal.
  rewrite <- (IH (S k)) by (intros r' Hr'; apply Hrows; by right).
  apply imap_ext. intros i x _. simpl. f_equal. lia.
Qed.

(** X19.  With a field name as key selector and a truthy value in that
    field on every row of [data], the rendered rows are keyed by that
    value: each row keeps its key whatever the sort state, and the keys
    of the view are those of [data] rearranged. *)
Theorem row_keys_by_field
    (engine : Engine) (props : Props) (field : string)
    (w : World) :
  rowKey props = KeyField field ->
  (forall r, r ∈ contents (heap w) (data props) ->
             truthy (get r field) = true) ->
  rowKeys props (viewRows engine props w)
  = map (fun r => get r field) (viewRows engine props w) /\
  Permutation (rowKeys props (viewRows engine props w))
              (rowKeys props (contents (heap w) (data props))).
Proof.
  intros Hk Hrows.
  pose proof (viewRows_perm engine props w) as Hp.
  assert (Hview : forall r, r ∈ viewRows engine props w ->
                            truthy (get r field) = true).
  { intros r Hr. apply Hrows. by rewrite <- Hp. }
  rewrite !(rowKeys_truthy props field) by done.
  split; [done|]. by apply Permutation_map.
Qed.

Lemma row_keys_by_field_witness :
  let w := step Sample.engine Sample.props (mount Sample.store)
             (HeaderClick Sample.nameColumn) in
  rowKeys Sample.props (viewRows Sample.engine Sample.props w)
  = [VNum 3; VNum 2; VNum 1].
Proof.
  intros w.
  assert (Hrows : forall r, r ∈ contents (heap w) (data Sample.props) ->
                            truthy (get r "id") = true).
  { intros r Hr. vm_compute in Hr.
    repeat (apply elem_of_cons in Hr as [->|Hr]; [reflexivity|]).
    by apply elem_of_nil in Hr. }
  destruct (row_keys_by_field Sample.engine Sample.props "id" w
              eq_refl Hrows) as [Hkeys _].
  rewrite Hkeys. vm_compute. reflexivity.
Defined.

(** X20.  With a field name as key selector and no truthy value in that
    field on any row, the rendered rows are keyed by their positions
    0, 1, 2, ...: the keys are distinct, and belong to the places, not
    to the records. *)
Theorem row_keys_by_position (props : Props) (field : string)
    (rows : list Row) :
  rowKey props = KeyField field ->
  (forall r, r ∈ rows -> truthy (get r field) = false) ->
  rowKeys props rows
  = map (fun i => VNum (Z.of_nat i)) (seq 0 (length rows)) /\
  NoDup (rowKeys props rows).
Proof.
  intros Hk Hrows.
  assert (E : rowKeys props rows
              = map (fun i => VNum (Z.of_nat i)) (seq 0 (length rows))).
  { apply (rowKeys_falsy_from props field rows 0 Hk Hrows). }
  split; [done|]. rewrite E.
  apply NoDup_fmap_2; [|apply NoDup_seq].
  intros i j Hij. injection Hij as Hij. lia.
Qed.

Lemma row_keys_by_position_witness :
  let a : Row := {[ "name" := VStr "Ann" ]} in
  let b : Row := {[ "name" := VStr "Bob"; "id" := VNum 0 ]} in
  rowKeys Sample.props [a; b] = [VNum 0; VNum 1] /\
  rowKeys Sample.props [b; a] = [VNum 0; VNum 1].
Proof.
  intros a b.
  assert (Hrows : forall l, (l = [a; b] \/ l = [b; a]) ->
            forall r, r ∈ l -> truthy (get r "id") = false).
  { intros l [-> | ->] r Hr;
      repeat (apply elem_of_cons in Hr as [->|Hr]; [reflexivity|]);
      by apply elem_of_nil in Hr. }
  split.
  - exact (proj1 (row_keys_by_position Sample.props "id" [a; b] eq_refl
                    (Hrows _ (or_introl eq_refl)))).
  - exact (proj1 (row_keys_by_position Sample.props "id" [b; a] eq_refl
                    (Hrows _ (or_intror eq_refl)))).
Defined.

End RowMarkupFacts.

(* ===================================================================== *)
(** ** Classes, help text and the clear handler of the input field *)
(* ===================================================================== *)

Module InputClassFacts.
Import JS InputField InputFieldMarkup.

Lemma classNames_object (args : list ClassValue)
    (entries : list (string * bool)) (name : string) :
  CObject entries ∈ args -> (name, true) ∈ entries ->
  name ∈ classNames args.
Proof.
  intros Hargs Hentry. unfold classNames.
  apply list_elem_of_In, in_flat_map. exists (CObject entries).
  split; [by apply list_elem_of_In|]. simpl.
  apply in_map_iff. exists (name, true). split; [done|].
  apply filter_In. split; [by apply list_elem_of_In|done].
Qed.

(** The padding object is the seventh argument of [clsx]. *)
Lemma padding_class (props : Props) (variant : Variant) (size : Size)
    (className : option string) (focused : bool) (name : string)
    (cond12 cond16 cond10 : bool) :
  cond12 = (clearSlot props || toggleSlot props) ->
  cond16 = (clearSlot props && toggleSlot props) ->
  cond10 = (loading props
            && negb ((clearable props && negb (String.eqb (value props) ""))
                     || (bool_decide (type props = password)
                         || passwordToggle props))) ->
  (name, true) ∈ [("pr-12", cond12); ("pr-16", cond16); ("pr-10", cond10)] ->
  name ∈ classNames (inputClassArgs props variant size className focused).
Proof.
  intros -> -> -> Hname.
  eapply classNames_object; [|exact Hname].
  unfold inputClassArgs. do 6 apply list_elem_of_further.
  apply list_elem_of_here.
Qed.

Lemma shows_clearButton (props : Props) :
  shows (clearButton props) ClearButton ->
  clearSlot props = true /\ loading props = false.
Proof.
  unfold shows, clearButton, clearSlot.
  destruct props as [v dis inv load ty clr tog]; simpl.
  destruct clr; [|done]. destruct v; [done|].
  destruct dis; [done|]. by destruct load.
Qed.

Lemma shows_passwordToggleButton (props : Props) (showPassword : bool) :
  shows (passwordToggleButton props showPassword)
        (PasswordToggle showPassword) ->
  toggleSlot props = true /\ loading props = false.
Proof.
  unfold shows, passwordToggleButton, toggleSlot.
  destruct props as [v dis inv load ty clr tog]; simpl.
  rewrite (orb_comm tog).
  destruct (bool_decide (ty = password) || tog); [|done].
  destruct dis; [done|]. by destruct load.
Qed.

(** X22.  Whenever the clear button or the visibility toggle is shown,
    the input has the right padding [pr-12]; when both are shown it
    has [pr-16] as well. *)
Theorem padding_for_visible_buttons (props : Props) (variant : Variant)
    (size : Size) (className : option string)
    (focused showPassword : bool) :
  let classes :=
    classNames (inputClassArgs props variant size className focused) in
  (shows (clearButton props) ClearButton \/
   shows (passwordToggleButton props showPassword)
         (PasswordToggle showPassword) ->
   "pr-12" ∈ classes) /\
  (shows (clearButton props) ClearButton /\
   shows (passwordToggleButton props showPassword)
         (PasswordToggle showPassword) ->
   "pr-16" ∈ classes).
Proof.
  intros classes. split.
  - intros Hshown.
    assert (Hslot : clearSlot props || toggleSlot props = true).
    { destruct Hshown as [[H _]%shows_clearButton
                         |[H _]%shows_passwordToggleButton];
        rewrite H; [done|apply orb_true_r]. }
    apply (padding_class props variant size className focused "pr-12"
             _ _ _ eq_refl eq_refl eq_refl).
    rewrite Hslot. apply list_elem_of_here.
  - intros [[Hc _]%shows_clearButton [Ht _]%shows_passwordToggleButton].
    apply (padding_class props variant size className focused "pr-16"
             _ _ _ eq_refl eq_refl eq_refl).
    rewrite Hc, Ht. apply list_elem_of_further, list_elem_of_here.
Qed.

(** X23.  While the field is loading and not disabled, the input has
    right padding for the spinner: [pr-10], or [pr-12] when the field
    also makes room for a button. *)
Theorem padding_while_loading (props : Props) (variant : Variant)
    (size : Size) (className : option string) (focused : bool) :
  loading props = true ->
  disabled props = false ->
  let classes :=
    classNames (inputClassArgs props variant size className focused) in
  "pr-10" ∈ classes \/ "pr-12" ∈ classes.
Proof.
  intros Hl Hd classes.
  destruct ((clearable props && negb (String.eqb (value props) ""))
            || (bool_decide (type props = password) || passwordToggle props))
    eqn:Hroom.
  - right.
    apply (padding_class props variant size className focused "pr-12"
             _ _ _ eq_refl eq_refl eq_refl).
    unfold clearSlot, toggleSlot. rewrite Hd. simpl.
    rewrite !andb_true_r, Hroom. apply list_elem_of_here.
  - left.
    apply (padding_class props variant size className focused "pr-10"
             _ _ _ eq_refl eq_refl eq_refl).
    rewrite Hl, Hroom. simpl. do 2 apply list_elem_of_further.
    apply list_elem_of_here.
Qed.

Lemma padding_while_loading_witness :
  let props := {| value := "abc"; disabled := false; invalid := false;
                  loading := true; type := text; clearable := false;
                  passwordToggle := false |} in
  "pr-10" ∈ classNames (inputClassArgs props outlined md None false) \/
  "pr-12" ∈ classNames (inputClassArgs props outlined md None false).
Proof.
  intros props.
  exact (padding_while_loading props outlined md None false
           eq_refl eq_refl).
Defined.

(** X24.  A disabled field looks the same whatever its variant, its
    [invalid] flag and its focus: the class string depends on none of
    the three. *)
Theorem disabled_classes_fixed (props : Props) (variant variant' : Variant)
    (size : Size) (className : option string) (focused focused' : bool)
    (b : bool) :
  disabled props = true ->
  getInputClasses (withInvalid b props) variant' size className focused'
  = getInputClasses props variant size className focused.
Proof.
  intros Hd. unfold getInputClasses. f_equal.
  unfold inputClassArgs, clearSlot, toggleSlot, withInvalid.
  cbn [value disabled invalid loading type clearable passwordToggle].
  rewrite Hd.
  repeat (rewrite ?andb_false_r; cbn [andb orb negb]).
  reflexivity.
Qed.

Lemma disabled_classes_fixed_witness :
  let props := {| value := ""; disabled := true; invalid := false;
                  loading := false; type := email; clearable := true;
                  passwordToggle := false |} in
  getInputClasses (withInvalid true props) ghost lg None true
  = getInputClasses props filled lg None false.
Proof.
  intros props.
  exact (disabled_classes_fixed props filled ghost lg None false true true
           eq_refl).
Defined.

(** X25.  An invalid field never gets the focus ring: its class string
    is the same focused or not; and unless it is disabled it carries
    the red ring. *)
Theorem invalid_hides_focus_ring (props : Props) (variant : Variant)
    (size : Size) (className : option string) (focused focused' : bool) :
  invalid props = true ->
  getInputClasses props variant size className focused
  = getInputClasses props variant size className focused' /\
  (disabled props = false ->
   "border-red-500 dark:border-red-400 ring-2 ring-red-500/20 dark:ring-red-400/20"
   ∈ classNames (inputClassArgs props variant size className focused)).
Proof.
  intros Hi. split.
  - unfold getInputClasses. f_equal. unfold inputClassArgs. rewrite Hi.
    repeat (rewrite ?andb_false_r; cbn [andb orb negb]).
    reflexivity.
  - intros Hd. eapply classNames_object.
    + unfold inputClassArgs. do 4 apply list_elem_of_further.
      apply list_elem_of_here.
    + rewrite Hi, Hd. apply list_elem_of_here.
Qed.

Lemma invalid_hides_focus_ring_witness :
  let props := {| value := "x"; disabled := false; invalid := true;
                  loading := false; type := email; clearable := false;
                  passwordToggle := false |} in
  getInputClasses props outlined md None true
  = getInputClasses props outlined md None false.
Proof.
  intros props.
  exact (proj1 (invalid_hides_focus_ring props outlined md None true false
                  eq_refl)).
Defined.

(** X26.  The input refers to a help element by [aria-describedby]
    exactly when that element is rendered, and then by its id; the
    element shows the error message, as an alert, when there is one,
    and the helper text otherwise. *)
Theorem help_text_consistent (inputId : string)
    (helperText errorMessage : option string) :
  (is_Some (ariaDescribedby inputId helperText errorMessage) <->
   is_Some (helpElement inputId helperText errorMessage)) /\
  (forall h : Help,
      helpElement inputId helperText errorMessage = Some h ->
      help_id h = ariaDescribedby inputId helperText errorMessage /\
      help_id h = Some (inputId +:+ "-help") /\
      (given errorMessage = true ->
       help_text h = errorMessage /\ help_alert h = true) /\
      (given errorMessage = false ->
       help_text h = helperText /\ help_alert h = false /\
       given helperText = true)).
Proof.
  unfold ariaDescribedby, helpElement, helpId.
  rewrite (orb_comm (given helperText)).
  destruct (given errorMessage) eqn:Ee, (given helperText) eqn:Eh; simpl.
  - split; [split; eauto|]. intros h [= <-]. simpl. by repeat split.
  - split; [split; eauto|]. intros h [= <-]. simpl. by repeat split.
  - split; [split; eauto|]. intros h [= <-]. simpl. by repeat split.
  - split; [|done]. split; intros [x Hx]; discriminate Hx.
Qed.

(** X27.  A click on a clear button that is shown always reaches
    [onChange], when the prop is given, with the empty string: the
    guard of [handleClear] never stops it. *)
Theorem clear_button_clears (props : Props) (onChange : bool) :
  shows (clearButton props) ClearButton ->
  handleClear props onChange = if onChange then Some "" else None.
Proof.
  intros [Hslot _]%shows_clearButton. unfold handleClear.
  unfold clearSlot in Hslot. apply andb_prop in Hslot as [_ Hd].
  by rewrite Hd.
Qed.

Lemma clear_button_clears_witness :
  let props := {| value := "abc"; disabled := false; invalid := false;
                  loading := false; type := text; clearable := true;
                  passwordToggle := false |} in
  handleClear props true = Some "".
Proof.
  intros props.
  exact (clear_button_clears props true eq_refl).
Defined.

End InputClassFacts.

(* ===================================================================== *)
(** ** The order of the view on a column of strings *)
(* ===================================================================== *)

Module StringOrderFacts.
Import JS DataTable Order TableMarkup ArrayFacts SortStateFacts ViewFacts.
Import SortSelectionFacts ComparatorFacts ColumnOrderFacts EventFacts.
Import ViewOrderFacts.



End StringOrderFacts.

(* ===================================================================== *)
(** ** A disabled field that is loading *)
(* ===================================================================== *)

Module DisabledLoadingFacts.
Import JS InputField InputFieldMarkup.

(** X29.  A disabled field that is loading shows the spinner; when it
    also has a value to clear, a password type or the toggle, and no
    [className], none of the right paddings [pr-10], [pr-12], [pr-16]
    is applied. *)
Theorem disabled_loading_no_padding (props : Props) (variant : Variant)
    (size : Size) (focused : bool) :
  disabled props = true ->
  loading props = true ->
  (clearable props = true /\ value props <> "") \/
  type props = password \/ passwordToggle props = true ->
  let classes := classNames (inputClassArgs props variant size None focused) in
  shows (loadingSpinner props) LoadingSpinner /\
  ("pr-10" ∉ classes) /\ ("pr-12" ∉ classes) /\ ("pr-16" ∉ classes).
Proof.
  intros Hd Hl Hroom classes.
  assert (Hb : (clearable props && negb (String.eqb (value props) ""))
               || (bool_decide (type props = password)
                   || passwordToggle props) = true).
  { destruct Hroom as [[Hc Hv]|[Ht|Hp]].
    - rewrite Hc. apply String.eqb_neq in Hv. by rewrite Hv.
    - rewrite (bool_decide_eq_true_2 _ Ht). apply orb_true_r.
    - rewrite Hp. by rewrite !orb_true_r. }
  split; [unfold shows, loadingSpinner; by rewrite Hl|].
  assert (Hclasses : classes
            = [ "w-full transition-all duration-200 outline-none font-medium";
                match size with
                | sm => "text-sm px-3 py-2 rounded-md"
                | md => "text-base px-4 py-3 rounded-lg"
                | lg => "text-lg px-5 py-4 rounded-xl"
                end;
                "opacity-60 cursor-not-allowed bg-gray-50 dark:bg-gray-900 border-gray-200 dark:border-gray-700 text-gray-400 dark:text-gray-500" ]).
  { unfold classes, inputClassArgs, clearSlot, toggleSlot.
    rewrite Hd, Hl, Hb.
    repeat (rewrite ?andb_false_r; cbn [andb orb negb]).
    by destruct size. }
  rewrite Hclasses.
  repeat split; intros Hin;
    repeat (apply elem_of_cons in Hin as [Hin|Hin];
            [by destruct size|]);
    by apply elem_of_nil in Hin.
Qed.

Lemma disabled_loading_no_padding_witness :
  let props := {| value := "secret"; disabled := true; invalid := false;
                  loading := true; type := password; clearable := false;
                  passwordToggle := false |} in
  shows (loadingSpinner props) LoadingSpinner /\
  ("pr-10" ∉ classNames (inputClassArgs props outlined md None false)).
Proof.
  intros props.
  destruct (disabled_loading_no_padding props outlined md false
              eq_refl eq_refl (or_intror (or_introl eq_refl)))
    as (Hs & H10 & _).
  split; [exact Hs|exact H10].
Defined.

End DisabledLoadingFacts.
